(** * Loyalty scoring, ranking and bonus allocation

    A shallow embedding of the computational core of the loyalty dashboard:
    [LoyaltyCalculator] (loyalty_calculator.py), [validate_data] (utils.py)
    and the allocation step of [bonus_allocation_page] (app.py).

    Numbers.  The Python code computes with binary64 floats and int64
    counters held in pandas columns.  Finite values are modelled here as exact
    rationals ([Q]): rounding and overflow are idealised away, so equalities
    between finite values are stated up to [Qeq].  The special results of a
    float division by zero (infinities and NaN), which pandas produces
    silently instead of raising, are kept: see [float64].  Properties that
    depend on the exact laws of addition are stated with a tolerance and
    for tables in a range where rounding stays below it (see [close_to] and
    [in_safe_range]); the wrap-around of an int64 column sum is modelled in
    [Typed], the calculator with column dtypes.

    Frames.  A pandas DataFrame is a list of rows together with its list of
    column labels; looking up a label that is not a column raises [KeyError],
    as in pandas. *)

From Stdlib Require Import List String Ascii Bool ZArith NArith QArith Qabs.
From Stdlib Require Import Lqa Lia Permutation Sorted.
From Stdlib Require Import Qround.
Import ListNotations.

Set Implicit Arguments.

(* ================================================================= *)
(** ** Exceptions *)

Inductive exn : Type :=
| KeyError (key : string).

Inductive result (A : Type) : Type :=
| Ok (a : A)
| Raise (e : exn).

Arguments Ok {A} a.
Arguments Raise {A} e.

Definition bind {A B : Type} (m : result A) (k : A -> result B) : result B :=
  match m with
  | Ok a => k a
  | Raise e => Raise e
  end.

Notation "x <- m ;; k" := (bind m (fun x => k))
  (at level 61, m at next level, right associativity).

(* ================================================================= *)
(** ** Numbers *)

(** A float column value: a finite number, an infinity, or NaN. *)
Inductive float64 : Type :=
| Finite (q : Q)
| PosInf
| NegInf
| NaN.

Definition Qpositive (x : Q) : bool := negb (Qle_bool x 0).
Definition Qnegative (x : Q) : bool := negb (Qle_bool 0 x).

(** [x / y] on floats; numpy does not raise on a zero divisor.  Zero is
    taken as [+0.0], which is what a sum of non-negative numbers gives. *)
Definition fdiv (x y : float64) : float64 :=
  match x, y with
  | NaN, _ | _, NaN => NaN
  | Finite a, Finite b =>
      if Qeq_bool b 0 then
        if Qeq_bool a 0 then NaN
        else if Qpositive a then PosInf else NegInf
      else Finite (a / b)
  | Finite _, (PosInf | NegInf) => Finite 0
  | (PosInf | NegInf), (PosInf | NegInf) => NaN
  | PosInf, Finite b => if Qnegative b then NegInf else PosInf
  | NegInf, Finite b => if Qnegative b then PosInf else NegInf
  end.

(** The sign of an infinity multiplied by a finite factor; [0 * inf] is NaN. *)
Definition scale_inf (positive : bool) (b : Q) : float64 :=
  if Qeq_bool b 0 then NaN
  else if Bool.eqb positive (Qpositive b) then PosInf else NegInf.

Definition fmul (x y : float64) : float64 :=
  match x, y with
  | NaN, _ | _, NaN => NaN
  | Finite a, Finite b => Finite (a * b)
  | PosInf, Finite b | Finite b, PosInf => scale_inf true b
  | NegInf, Finite b | Finite b, NegInf => scale_inf false b
  | PosInf, PosInf | NegInf, NegInf => PosInf
  | PosInf, NegInf | NegInf, PosInf => NegInf
  end.

Definition fadd (x y : float64) : float64 :=
  match x, y with
  | NaN, _ | _, NaN => NaN
  | Finite a, Finite b => Finite (a + b)
  | PosInf, NegInf | NegInf, PosInf => NaN
  | PosInf, _ | _, PosInf => PosInf
  | NegInf, _ | _, NegInf => NegInf
  end.

Definition is_nan (x : float64) : bool :=
  match x with NaN => true | _ => false end.

(** [Series.sum()] of a column of finite numbers. *)
Definition sum (col : list Q) : Q := fold_right Qplus 0 col.

(** [Series.sum()] of a float column: NaN entries are skipped
    ([skipna=True] is the default). *)
Definition fsum (col : list float64) : float64 :=
  fold_right fadd (Finite 0) (filter (fun x => negb (is_nan x)) col).

(** [(col > 0).sum()]: the number of positive entries. *)
Definition count_positive (col : list Q) : Z :=
  Z.of_nat (List.length (filter Qpositive col)).

(** [|s - pool| <= 1e-6 * |pool|], false when [s] is not finite. *)
Definition within_tolerance (s : float64) (pool : Q) : Prop :=
  match s with
  | Finite q => Qabs (q - pool) <= 0.000001 * Qabs pool
  | _ => False
  end.

(* ================================================================= *)
(** ** Activity records *)

Local Open Scope string_scope.

(** One row of the activity table.  [date] holds the ['%Y-%m-%d'] rendering
    of the timestamp, the only form in which the calculator reads it. *)
Record ActivityRecord : Type := mkActivity {
  player_id : string;
  date : string;
  time_slot : string;
  deposits : Q;
  withdrawals : Q;
  games_played : Q
}.

(** [Series.unique()]: distinct values in order of first appearance. *)
Fixpoint unique (l : list string) : list string :=
  match l with
  | [] => []
  | x :: l' => x :: filter (fun y => negb (String.eqb x y)) (unique l')
  end.

(* ================================================================= *)
(** ** LoyaltyCalculator *)

Record Weights : Type := mkWeights {
  w_deposit_amount : Q;
  w_withdrawal_amount : Q;
  w_deposit_frequency : Q;
  w_games_played : Q
}.

(** [self.weights], as set by [__init__]. *)
Definition weights : Weights := {|
  w_deposit_amount := 0.01;
  w_withdrawal_amount := 0.005;
  w_deposit_frequency := 0.001;
  w_games_played := 0.2
|}.

(** The dictionary returned by [calculate_player_loyalty_points]. *)
Record LoyaltyPoints : Type := mkPoints {
  total_loyalty_points : Q;
  deposit_points : Q;
  withdrawal_points : Q;
  frequency_points : Q;
  games_points : Q;
  total_deposits : Q;
  total_withdrawals : Q;
  total_games_played : Q;
  deposit_transactions : Z;
  withdrawal_transactions : Z
}.

Definition calculate_player_loyalty_points (player_data : list ActivityRecord)
  : LoyaltyPoints :=
  let total_deposits := sum (map deposits player_data) in
  let total_withdrawals := sum (map withdrawals player_data) in
  let total_games := sum (map games_played player_data) in
  let deposit_count := count_positive (map deposits player_data) in
  let withdrawal_count := count_positive (map withdrawals player_data) in
  let deposit_points := total_deposits * w_deposit_amount weights in
  let withdrawal_points := total_withdrawals * w_withdrawal_amount weights in
  let frequency_diff := Z.max (deposit_count - withdrawal_count) 0 in
  let frequency_points := inject_Z frequency_diff * w_deposit_frequency weights in
  let games_points := total_games * w_games_played weights in
  let total_points :=
    deposit_points + withdrawal_points + frequency_points + games_points in
  {| total_loyalty_points := total_points;
     deposit_points := deposit_points;
     withdrawal_points := withdrawal_points;
     frequency_points := frequency_points;
     games_points := games_points;
     total_deposits := total_deposits;
     total_withdrawals := total_withdrawals;
     total_games_played := total_games;
     deposit_transactions := deposit_count;
     withdrawal_transactions := withdrawal_count |}.

(* ================================================================= *)
(** ** Result frames *)

(** One row of a result frame: the dictionary
    [{'player_id': ..., **loyalty_calc}] of the monthly calculation, or
    [{'player_id': ..., 'date': ..., 'time_slot': ..., **loyalty_calc}] of the
    slot calculation. *)
Record LoyaltyRow : Type := mkRow {
  row_player_id : string;
  row_date : option string;
  row_time_slot : option string;
  points : LoyaltyPoints
}.

Record DataFrame (R : Type) : Type := mkFrame {
  columns : list string;
  rows : list R
}.

(** [pd.DataFrame()]: no columns, no rows. *)
Definition empty_frame {R : Type} : DataFrame R :=
  {| columns := []; rows := [] |}.

Definition points_keys : list string :=
  [ "total_loyalty_points"; "deposit_points"; "withdrawal_points";
    "frequency_points"; "games_points"; "total_deposits";
    "total_withdrawals"; "total_games_played"; "deposit_transactions";
    "withdrawal_transactions" ].

Definition row_keys (r : LoyaltyRow) : list string :=
  "player_id"
    :: match row_date r with Some _ => ["date"] | None => [] end
    ++ match row_time_slot r with Some _ => ["time_slot"] | None => [] end
    ++ points_keys.

(** [pd.DataFrame(results)] for a list of dictionaries: the columns are the
    keys of the dictionaries, so an empty list gives a frame without
    columns. *)
Definition DataFrame_of_records (results : list LoyaltyRow)
  : DataFrame LoyaltyRow :=
  {| columns := match results with [] => [] | r :: _ => row_keys r end;
     rows := results |}.

Definition has_column {R : Type} (df : DataFrame R) (col : string) : bool :=
  existsb (String.eqb col) (columns df).

(** Adding a column by assignment: an existing label keeps its place. *)
Definition with_column (cols : list string) (col : string) : list string :=
  if existsb (String.eqb col) cols then cols else cols ++ [col].

(** A value held in a column. *)
Inductive cell : Type :=
| Num (q : Q)
| Str (s : string).

Definition get (r : LoyaltyRow) (col : string) : option cell :=
  let p := points r in
  if col =? "player_id" then Some (Str (row_player_id r))
  else if col =? "date" then option_map Str (row_date r)
  else if col =? "time_slot" then option_map Str (row_time_slot r)
  else if col =? "total_loyalty_points" then Some (Num (total_loyalty_points p))
  else if col =? "deposit_points" then Some (Num (deposit_points p))
  else if col =? "withdrawal_points" then Some (Num (withdrawal_points p))
  else if col =? "frequency_points" then Some (Num (frequency_points p))
  else if col =? "games_points" then Some (Num (games_points p))
  else if col =? "total_deposits" then Some (Num (total_deposits p))
  else if col =? "total_withdrawals" then Some (Num (total_withdrawals p))
  else if col =? "total_games_played" then Some (Num (total_games_played p))
  else if col =? "deposit_transactions"
    then Some (Num (inject_Z (deposit_transactions p)))
  else if col =? "withdrawal_transactions"
    then Some (Num (inject_Z (withdrawal_transactions p)))
  else None.

(* ----------------------------------------------------------------- *)
(** *** Sorting *)

(** Numbers by value, strings by code point.  A column never mixes the two
    in the frames built here. *)
Definition cell_compare (a b : cell) : comparison :=
  match a, b with
  | Num x, Num y => Qcompare x y
  | Str s, Str t => String.compare s t
  | Num _, Str _ => Lt
  | Str _, Num _ => Gt
  end.

(** A missing value is placed last ([na_position='last']). *)
Definition key_compare (a b : option cell) : comparison :=
  match a, b with
  | Some x, Some y => cell_compare x y
  | Some _, None => Gt
  | None, Some _ => Lt
  | None, None => Eq
  end.

Fixpoint lex_compare (ka kb : list (option cell)) : comparison :=
  match ka, kb with
  | a :: ka', b :: kb' =>
      match key_compare a b with
      | Eq => lex_compare ka' kb'
      | c => c
      end
  | _, _ => Eq
  end.

Definition row_compare (by_ : list string) (a b : LoyaltyRow) : comparison :=
  lex_compare (map (get a) by_) (map (get b) by_).

(** [a] may stand before [b] in descending order. *)
Definition not_below (by_ : list string) (a b : LoyaltyRow) : bool :=
  match row_compare by_ a b with Lt => false | _ => true end.

Section StableSort.

Variable A : Type.
Variable geb : A -> A -> bool.

Fixpoint insert_desc (x : A) (l : list A) : list A :=
  match l with
  | [] => [x]
  | y :: l' => if geb x y then x :: l else y :: insert_desc x l'
  end.

(** Rows with equal keys keep their original order. *)
Definition stable_sort_desc (l : list A) : list A :=
  fold_right insert_desc [] l.

End StableSort.

Fixpoint check_columns {R : Type} (df : DataFrame R) (by_ : list string)
  : result unit :=
  match by_ with
  | [] => Ok tt
  | c :: by' =>
      if has_column df c then check_columns df by' else Raise (KeyError c)
  end.

(** [df.sort_values(by, ascending=False).reset_index(drop=True)].
    With several keys pandas sorts stably; with a single key the order among
    equal keys is not fixed by pandas, and is the original order here. *)
Definition sort_values (df : DataFrame LoyaltyRow) (by_ : list string)
  : result (DataFrame LoyaltyRow) :=
  _ <- check_columns df by_ ;;
  Ok {| columns := columns df;
        rows := stable_sort_desc (not_below by_) (rows df) |}.

(** [df.nlargest(n, col).reset_index(drop=True)]: the first [n] rows in
    descending order of [col], ties in original order ([keep='first']). *)
Definition nlargest (n : nat) (col : string) (df : DataFrame LoyaltyRow)
  : result (DataFrame LoyaltyRow) :=
  sorted <- sort_values df [col] ;;
  Ok {| columns := columns sorted; rows := firstn n (rows sorted) |}.

(* ----------------------------------------------------------------- *)
(** *** Scoring operations *)

Definition for_player (pid : string) (data : list ActivityRecord)
  : list ActivityRecord :=
  filter (fun r => player_id r =? pid) data.

Definition calculate_slot_loyalty_points (data : list ActivityRecord)
    (target_date slot : string) : DataFrame LoyaltyRow :=
  let slot_data :=
    filter (fun r => (date r =? target_date) && (time_slot r =? slot)) data in
  match slot_data with
  | [] => empty_frame
  | _ =>
      let results :=
        map (fun pid =>
               let player_slot_data := for_player pid slot_data in
               let loyalty_calc :=
                 calculate_player_loyalty_points player_slot_data in
               {| row_player_id := pid;
                  row_date := Some target_date;
                  row_time_slot := Some slot;
                  points := loyalty_calc |})
            (unique (map player_id slot_data)) in
      DataFrame_of_records results
  end.

Definition monthly_results (data : list ActivityRecord) : list LoyaltyRow :=
  map (fun pid =>
         let player_data := for_player pid data in
         let loyalty_calc := calculate_player_loyalty_points player_data in
         {| row_player_id := pid;
            row_date := None;
            row_time_slot := None;
            points := loyalty_calc |})
      (unique (map player_id data)).

Definition calculate_monthly_loyalty_points (data : list ActivityRecord)
  : result (DataFrame LoyaltyRow) :=
  let results := monthly_results data in
  let results_df := DataFrame_of_records results in
  sort_values results_df ["total_loyalty_points"].

(* ----------------------------------------------------------------- *)
(** *** Ranking *)

Record RankedRow : Type := mkRanked {
  entry : LoyaltyRow;
  rank : Z
}.

(** [range(lo, hi)]. *)
Definition range (lo hi : Z) : list Z :=
  map (fun i => (lo + Z.of_nat i)%Z) (seq 0 (Z.to_nat (hi - lo))).

(** [df['rank'] = range(1, len(df) + 1)]. *)
Definition assign_rank (l : list LoyaltyRow) : list RankedRow :=
  map (fun p => {| entry := fst p; rank := snd p |})
      (combine l (range 1 (Z.of_nat (List.length l) + 1))).

Definition default_tie_breaker : string := "total_games_played".

Definition rank_players_by_loyalty_points (loyalty_data : DataFrame LoyaltyRow)
    (tie_breaker : string) : result (DataFrame RankedRow) :=
  ranked_data <- sort_values loyalty_data ["total_loyalty_points"; tie_breaker] ;;
  Ok {| columns := with_column (columns ranked_data) "rank";
        rows := assign_rank (rows ranked_data) |}.

(* ================================================================= *)
(** ** Bonus allocation (app.py) *)

(** The three choices of the "Allocation Method" select box. *)
Inductive AllocationMethod : Type :=
| Proportional   (* "Proportional to Loyalty Points" *)
| Equal          (* "Equal Distribution" *)
| Tiered.        (* "Tiered Distribution" *)

Record BonusRow : Type := mkBonus {
  ranked : RankedRow;
  bonus_amount : float64
}.

Definition loyalty_points_of (r : RankedRow) : Q :=
  total_loyalty_points (points (entry r)).

(** [df.loc[lo:hi, col] = v] on the default index: both ends are included,
    and labels beyond the last row select nothing. *)
Definition loc_assign (lo hi : nat) (v : float64) (col : list float64)
  : list float64 :=
  map (fun p => if (lo <=? fst p)%nat && (fst p <=? hi)%nat then v else snd p)
      (combine (seq 0 (List.length col)) col).

Definition bonus_column (allocation_method : AllocationMethod)
    (bonus_pool : Q) (top_50_players : list RankedRow) : list float64 :=
  match allocation_method with
  | Proportional =>
      let total_points := sum (map loyalty_points_of top_50_players) in
      map (fun r =>
             fmul (fdiv (Finite (loyalty_points_of r)) (Finite total_points))
                  (Finite bonus_pool))
          top_50_players
  | Equal =>
      map (fun _ => Finite (bonus_pool / 50)) top_50_players
  | Tiered =>
      let col := map (fun _ => Finite 0.0) top_50_players in
      let top_10_bonus := Finite (bonus_pool * 0.5 / 10) in
      let col := loc_assign 0 9 top_10_bonus col in
      let next_20_bonus := Finite (bonus_pool * 0.35 / 20) in
      let col := loc_assign 10 29 next_20_bonus col in
      let last_20_bonus := Finite (bonus_pool * 0.15 / 20) in
      loc_assign 30 49 last_20_bonus col
  end.

(** The computation run by the "Calculate Bonus Allocation" button;
    [results_df] is the frame kept in [st.session_state.loyalty_results]. *)
Definition bonus_allocation_page (results_df : DataFrame LoyaltyRow)
    (bonus_pool : Q) (allocation_method : AllocationMethod)
  : result (DataFrame BonusRow) :=
  top <- nlargest 50 "total_loyalty_points" results_df ;;
  let top_50_players := assign_rank (rows top) in
  let bonus := bonus_column allocation_method bonus_pool top_50_players in
  Ok {| columns := with_column (with_column (columns top) "rank") "bonus_amount";
        rows := map (fun p => {| ranked := fst p; bonus_amount := snd p |})
                    (combine top_50_players bonus) |}.

(** [top_50_players['bonus_amount'].sum()], the "Total Allocated" metric. *)
Definition total_allocated (df : DataFrame BonusRow) : float64 :=
  fsum (map bonus_amount (rows df)).

(* ================================================================= *)
(** ** Validation (utils.py) *)

(** A value of an uploaded table before any cleaning. *)
Inductive RawCell : Type :=
| Null
| RawNum (q : Q)
| RawStr (s : string).

(** An uploaded table: column labels and rows of cells, a row holding one
    cell per label. *)
Record RawFrame : Type := mkRaw {
  raw_columns : list string;
  raw_rows : list (list RawCell)
}.

Fixpoint index_of (col : string) (cols : list string) : option nat :=
  match cols with
  | [] => None
  | c :: cols' =>
      if c =? col then Some O else option_map S (index_of col cols')
  end.

(** [col in data.columns]. *)
Definition raw_has_column (data : RawFrame) (col : string) : bool :=
  existsb (String.eqb col) (raw_columns data).

(** [data[col]], for a label that is a column. *)
Definition raw_column (data : RawFrame) (col : string) : list RawCell :=
  match index_of col (raw_columns data) with
  | Some i => map (fun row => nth i row Null) (raw_rows data)
  | None => []
  end.

Definition is_null (c : RawCell) : bool :=
  match c with Null => true | _ => false end.

Definition RawCell_eqb (a b : RawCell) : bool :=
  match a, b with
  | Null, Null => true
  | RawNum x, RawNum y => Qeq_bool x y
  | RawStr s, RawStr t => s =? t
  | _, _ => false
  end.

Fixpoint unique_cells (l : list RawCell) : list RawCell :=
  match l with
  | [] => []
  | x :: l' => x :: filter (fun y => negb (RawCell_eqb x y)) (unique_cells l')
  end.

(** [cell in valid_slots]. *)
Definition isin (valid : list string) (c : RawCell) : bool :=
  match c with
  | RawStr s => existsb (String.eqb s) valid
  | _ => false
  end.

Record ValidationResult : Type := mkValidation {
  is_valid : bool;
  errors : list string
}.

Definition required_columns : list string :=
  ["player_id"; "date"; "time_slot"; "deposits"; "withdrawals"; "games_played"].

Definition valid_slots : list string := ["S1"; "S2"].

Definition numeric_columns : list string :=
  ["deposits"; "withdrawals"; "games_played"].

(** [errors.append(msg)]. *)
Definition append (errors : list string) (msg : string) : list string :=
  (errors ++ [msg])%list.

Section Validator.

(** What the validator takes from pandas and Python: whether
    [pd.to_datetime] accepts a column, how [pd.to_numeric] reads a string,
    and the [repr] of a cell. *)
Variable to_datetime_ok : list RawCell -> bool.
Variable parse_number : string -> option Q.
Variable repr : RawCell -> string.

(** [pd.to_numeric(cell, errors='coerce')]; [None] stands for NaN. *)
Definition to_numeric (c : RawCell) : option Q :=
  match c with
  | Null => None
  | RawNum q => Some q
  | RawStr s => parse_number s
  end.

Definition isnull_numeric (x : option Q) : bool :=
  match x with None => true | Some _ => false end.

Definition below_zero (x : option Q) : bool :=
  match x with None => false | Some q => Qnegative q end.

(** The text of [list(values)] in an f-string. *)
Definition repr_list (values : list RawCell) : string :=
  "[" ++ String.concat ", " (map repr values) ++ "]".

(** The body of the loop over [numeric_columns].  With [errors='coerce']
    the conversion of a column does not raise; the [except] branch is
    taken only when [data[col]] is a frame, that is when the label occurs
    more than once.  The model covers frames whose labels are distinct. *)
Definition validate_numeric (data : RawFrame) (errors : list string)
    (col : string) : list string :=
  if raw_has_column data col then
    let numeric_data := map to_numeric (raw_column data col) in
    let errors :=
      if existsb isnull_numeric numeric_data
      then append errors ("Non-numeric values found in " ++ col)
      else errors in
    if existsb below_zero numeric_data
    then append errors ("Negative values found in " ++ col)
    else errors
  else errors.

Definition validate_data (data : RawFrame) : ValidationResult :=
  let errors := [] in
  let missing_columns :=
    filter (fun col => negb (raw_has_column data col)) required_columns in
  let errors :=
    match missing_columns with
    | [] => errors
    | _ => append errors ("Missing required columns: "
                            ++ String.concat ", " missing_columns)
    end in
  if (List.length (raw_rows data) =? 0)%nat then
    let errors := append errors "Dataset is empty" in
    {| is_valid := false; errors := errors |}
  else
    let errors :=
      if raw_has_column data "player_id"
         && existsb is_null (raw_column data "player_id")
      then append errors "Player ID contains null values"
      else errors in
    let errors :=
      if raw_has_column data "date"
         && negb (to_datetime_ok (raw_column data "date"))
      then append errors "Invalid date format detected"
      else errors in
    let errors :=
      if raw_has_column data "time_slot" then
        let invalid_slots :=
          unique_cells
            (filter (fun c => negb (isin valid_slots c))
                    (raw_column data "time_slot")) in
        if (0 <? List.length invalid_slots)%nat
        then append errors ("Invalid time_slot values found: "
                              ++ repr_list invalid_slots)
        else errors
      else errors in
    let errors := fold_left (validate_numeric data) numeric_columns errors in
    {| is_valid := (List.length errors =? 0)%nat; errors := errors |}.
End Validator.

(* ================================================================= *)
(** ** Orders used by the proofs *)

(** A comparison function that behaves as a total preorder. *)
Record total_preorder_cmp {A : Type} (cmp : A -> A -> comparison) : Prop := {
  cmp_antisym : forall a b, cmp a b = CompOpp (cmp b a);
  cmp_lt_trans : forall a b c, cmp a b = Lt -> cmp b c = Lt -> cmp a c = Lt;
  cmp_eq_compat : forall a b c, cmp a b = Eq -> cmp a c = cmp b c
}.

Definition nonneg_record (r : ActivityRecord) : Prop :=
  0 <= deposits r /\ 0 <= withdrawals r /\ 0 <= games_played r.

Definition points_of (r : LoyaltyRow) : Q := total_loyalty_points (points r).

Definition games_of (r : LoyaltyRow) : Q := total_games_played (points r).

(** Descending order of [total_loyalty_points]. *)
Definition descending (l : list LoyaltyRow) : Prop :=
  StronglySorted (fun a b => points_of b <= points_of a) l.

(** The number of records of [data] whose column [f] is greater than
    zero. *)
Definition transactions (f : ActivityRecord -> Q) (data : list ActivityRecord)
  : Z :=
  Z.of_nat
    (List.length
       (filter (fun r => if Qlt_le_dec 0 (f r) then true else false) data)).

(** The fixed-weight formula, read as a relation between the records of one
    player and a breakdown. *)
Definition fixed_weight_formula (data : list ActivityRecord)
    (b : LoyaltyPoints) : Prop :=
  total_deposits b = sum (map deposits data)
  /\ total_withdrawals b = sum (map withdrawals data)
  /\ total_games_played b = sum (map games_played data)
  /\ deposit_transactions b = transactions deposits data
  /\ withdrawal_transactions b = transactions withdrawals data
  /\ deposit_points b = total_deposits b * 0.01
  /\ withdrawal_points b = total_withdrawals b * 0.005
  /\ frequency_points b
     = inject_Z
         (Z.max (deposit_transactions b - withdrawal_transactions b) 0)
       * 0.001
  /\ games_points b = total_games_played b * 0.2
  /\ total_loyalty_points b
     = deposit_points b + withdrawal_points b + frequency_points b
       + games_points b.

(** The frame holding the single breakdown [b] of player [pid]. *)
Definition single_player_frame (pid : string) (b : LoyaltyPoints)
  : DataFrame LoyaltyRow :=
  {| columns := "player_id" :: points_keys;
     rows := [ {| row_player_id := pid; row_date := None;
                  row_time_slot := None; points := b |} ] |}.

(** Equality of float values; NaN equals nothing. *)
Definition float_eq (x y : float64) : Prop :=
  match x, y with
  | Finite a, Finite b => a == b
  | PosInf, PosInf | NegInf, NegInf => True
  | _, _ => False
  end.

(** The [total_loyalty_points] of the players that enter the allocation. *)
Definition top_50_points (results_df : DataFrame LoyaltyRow) : list Q :=
  match nlargest 50 "total_loyalty_points" results_df with
  | Ok top => map points_of (rows top)
  | Raise _ => []
  end.

(* ================================================================= *)
(** ** Sample data *)

(** The sample rows of the "Expected Data Format" panel of the upload
    page. *)
Definition P001_first : ActivityRecord :=
  mkActivity "P001" "2023-10-02" "S1" 1000 500 5.

Definition P001_second : ActivityRecord :=
  mkActivity "P001" "2023-10-16" "S2" 0 0 3.

(** A player whose only record shows no activity. *)
Definition idle_player : ActivityRecord :=
  mkActivity "P002" "2023-10-02" "S1" 0 0 0.

(** [n] players with the activity of [P001_first], named by their number. *)
Definition numbered_player (i : nat) : ActivityRecord :=
  mkActivity (String (ascii_of_nat (48 + i / 10))
                (String (ascii_of_nat (48 + i mod 10)) EmptyString))
             "2023-10-02" "S1" 1000 500 5.

Definition crowd (n : nat) : list ActivityRecord :=
  map numbered_player (seq 0 n).

(** The frame that monthly scoring leaves in the session for [data]. *)
Definition session_results (data : list ActivityRecord)
  : DataFrame LoyaltyRow :=
  match calculate_monthly_loyalty_points data with
  | Ok df => df
  | Raise _ => empty_frame
  end.

(* ================================================================= *)
(** ** Slot keys and slot batches *)

(** [s.split(sep)] for a one-character separator: the pieces between the
    separators, one piece more than there are separators. *)
Fixpoint split (sep : ascii) (s : string) : list string :=
  match s with
  | EmptyString => [EmptyString]
  | String c s' =>
      if Ascii.eqb c sep then EmptyString :: split sep s'
      else match split sep s' with
           | [] => [String c EmptyString]
           | piece :: pieces => String c piece :: pieces
           end
  end.

(** [c in s]. *)
Fixpoint occurs (c : ascii) (s : string) : bool :=
  match s with
  | EmptyString => false
  | String c' s' => Ascii.eqb c' c || occurs c s'
  end.

(** utils.py: [f"{date}_{slot}"]. *)
Definition create_date_slot_key (date_ slot : string) : string :=
  date_ ++ "_" ++ slot.

(** utils.py: the pair [(date, slot)], or [None] for [(None, None)]. *)
Definition parse_date_slot_key (key : string) : option (string * string) :=
  let parts := split "_" key in
  if (2 <=? List.length parts)%nat then
    let date_ := String.concat "_" (removelast parts) in
    let slot := last parts EmptyString in
    Some (date_, slot)
  else None.

(** One entry of [slot_configs]: [{'date': ..., 'slot': ...}]. *)
Record SlotConfig : Type := mkConfig {
  config_date : string;
  config_slot : string
}.

(** A Python dictionary with string keys, in insertion order. *)
Definition dict (V : Type) : Type := list (string * V).

Fixpoint dict_get {V : Type} (d : dict V) (k : string) : option V :=
  match d with
  | [] => None
  | (k', v) :: d' => if k' =? k then Some v else dict_get d' k
  end.

(** [d[k] = v]: a key that is present keeps its place. *)
Fixpoint dict_set {V : Type} (d : dict V) (k : string) (v : V) : dict V :=
  match d with
  | [] => [(k, v)]
  | (k', v') :: d' =>
      if k' =? k then (k', v) :: d' else (k', v') :: dict_set d' k v
  end.

Definition slot_key (config : SlotConfig) : string :=
  config_date config ++ "_" ++ config_slot config.

Definition calculate_specific_slots_loyalty_points
    (data : list ActivityRecord) (slot_configs : list SlotConfig)
  : dict (DataFrame LoyaltyRow) :=
  fold_left
    (fun results config =>
       let slot_results :=
         calculate_slot_loyalty_points data (config_date config)
                                       (config_slot config) in
       dict_set results (slot_key config) slot_results)
    slot_configs [].

(* ================================================================= *)
(** ** Statistics *)

(** [Series.mean()]: NaN for an empty column. *)
Definition mean (col : list Q) : float64 :=
  match col with
  | [] => NaN
  | _ => Finite (sum col / inject_Z (Z.of_nat (List.length col)))
  end.

(** [sorted(strings)]. *)
Definition sorted (l : list string) : list string :=
  stable_sort_desc String.leb l.




(** utils.py: [(series < value).sum() / len(series) * 100]. *)
Definition calculate_percentile_rank (series : list Q) (value : Q) : float64 :=
  let below :=
    Z.of_nat (List.length (filter (fun x => negb (Qle_bool value x)) series)) in
  fmul (fdiv (Finite (inject_Z below))
             (Finite (inject_Z (Z.of_nat (List.length series)))))
       (Finite 100).

(** utils.py. *)
Definition calculate_growth_rate (current_value previous_value : Q) : Q :=
  if Qeq_bool previous_value 0 then
    if Qeq_bool current_value 0 then 0 else 100
  else ((current_value - previous_value) / previous_value) * 100.

(* ================================================================= *)
(** ** Sheet names (export_to_excel) *)

(** [s.replace(old, new)] for one-character [old] and [new]. *)
Fixpoint replace (old new : ascii) (s : string) : string :=
  match s with
  | EmptyString => EmptyString
  | String c s' =>
      String (if Ascii.eqb c old then new else c) (replace old new s')
  end.

(** [s[:n]]. *)
Fixpoint prefix_of (n : nat) (s : string) : string :=
  match n, s with
  | O, _ => EmptyString
  | S _, EmptyString => EmptyString
  | S n', String c s' => String c (prefix_of n' s')
  end.

(** The name under which [export_to_excel] writes a sheet:
    [sheet_name.replace('/', '_').replace('\\', '_')[:31]].  Lengths count
    characters of one byte, as in the sheet names the application uses. *)
Definition clean_sheet_name (sheet_name : string) : string :=
  prefix_of 31 (replace "\" "_" (replace "/" "_" sheet_name)).

(* ================================================================= *)
(** ** Summary report (utils.py) *)

(** [Series.max()] and [Series.min()]: NaN for an empty column. *)
Definition col_max (col : list Q) : float64 :=
  match col with
  | [] => NaN
  | x :: l => Finite (fold_left (fun m y => if Qle_bool y m then m else y) l x)
  end.

Definition col_min (col : list Q) : float64 :=
  match col with
  | [] => NaN
  | x :: l => Finite (fold_left (fun m y => if Qle_bool m y then m else y) l x)
  end.

(** The position of the first largest entry, scanning from position [i]
    with [best] the position of the largest entry [m] seen so far. *)
Fixpoint argmax_from (best : nat) (m : Q) (i : nat) (l : list Q) : nat :=
  match l with
  | [] => best
  | y :: l' =>
      if Qle_bool y m then argmax_from best m (S i) l'
      else argmax_from i y (S i) l'
  end.

(** [Series.idxmax()] on the default index of a non-empty column. *)
Definition idxmax (col : list Q) : nat :=
  match col with
  | [] => O
  | x :: l => argmax_from 0 x 1 l
  end.

(** [Series.median()]. *)
Definition median (col : list Q) : float64 :=
  match col with
  | [] => NaN
  | _ =>
      let ordered := stable_sort_desc Qle_bool col in
      let n := List.length col in
      if Nat.even n
      then Finite ((nth (n / 2 - 1) ordered 0 + nth (n / 2) ordered 0) / 2)
      else Finite (nth (n / 2) ordered 0)
  end.

Record SummaryReport : Type := mkReport {
  report_total_players : Z;
  report_total_loyalty_points : Q;
  report_average_loyalty_points : float64;
  report_median_loyalty_points : float64;
  report_max_loyalty_points : float64;
  report_min_loyalty_points : float64;
  report_std_loyalty_points : float64;
  report_top_player : string;
  report_total_deposits : Q;
  report_total_withdrawals : Q;
  report_total_games_played : Q;
  report_average_deposits_per_player : float64;
  report_average_games_per_player : float64
}.

(** [df.empty]: no rows or no columns. *)
Definition frame_empty {R : Type} (df : DataFrame R) : bool :=
  (List.length (rows df) =? 0)%nat || (List.length (columns df) =? 0)%nat.

Section SummaryReport.

(** The square root of the float library. *)
Variable sqrt : Q -> Q.

(** [Series.std()]: the sample standard deviation, NaN below two entries. *)
Definition std (col : list Q) : float64 :=
  match col with
  | [] | [_] => NaN
  | _ =>
      let n := inject_Z (Z.of_nat (List.length col)) in
      let m := sum col / n in
      Finite (sqrt (sum (map (fun x => (x - m) * (x - m)) col) / (n - 1)))
  end.

(** [None] stands for the empty dictionary. *)
Definition generate_loyalty_summary_report
    (loyalty_data : DataFrame LoyaltyRow) : result (option SummaryReport) :=
  if frame_empty loyalty_data then Ok None
  else
    _ <- check_columns loyalty_data
           [ "total_loyalty_points"; "player_id"; "total_deposits";
             "total_withdrawals"; "total_games_played" ] ;;
    let loyalty_points := map points_of (rows loyalty_data) in
    let deposits_ := map (fun r => total_deposits (points r))
                         (rows loyalty_data) in
    let withdrawals_ := map (fun r => total_withdrawals (points r))
                            (rows loyalty_data) in
    let games := map games_of (rows loyalty_data) in
    Ok (Some
          {| report_total_players := Z.of_nat (List.length (rows loyalty_data));
             report_total_loyalty_points := sum loyalty_points;
             report_average_loyalty_points := mean loyalty_points;
             report_median_loyalty_points := median loyalty_points;
             report_max_loyalty_points := col_max loyalty_points;
             report_min_loyalty_points := col_min loyalty_points;
             report_std_loyalty_points := std loyalty_points;
             report_top_player :=
               nth (idxmax loyalty_points)
                   (map row_player_id (rows loyalty_data)) EmptyString;
             report_total_deposits := sum deposits_;
             report_total_withdrawals := sum withdrawals_;
             report_total_games_played := sum games;
             report_average_deposits_per_player := mean deposits_;
             report_average_games_per_player := mean games |}).

End SummaryReport.

(* ================================================================= *)
(** ** Month selection (app.py, loyalty_calculations_page) *)





(* ================================================================= *)
(** ** Further predicates used by the proofs *)


(** The amount the Tiered method pays at a rank. *)
Definition tier_amount (bonus_pool : Q) (rank_ : Z) : Q :=
  if (rank_ <=? 10)%Z then bonus_pool * 0.5 / 10
  else if (rank_ <=? 30)%Z then bonus_pool * 0.35 / 20
  else bonus_pool * 0.15 / 20.

(** The frame of the entries of a ranked frame, as it was before the
    [rank] column was added. *)
Definition unranked (columns_ : list string) (ranked_data : DataFrame RankedRow)
  : DataFrame LoyaltyRow :=
  {| columns := columns_; rows := map entry (rows ranked_data) |}.

(** Records of three players over two months. *)
Definition two_months : list ActivityRecord :=
  [ mkActivity "P001" "2023-10-02" "S1" 1000 500 5;
    mkActivity "P002" "2023-10-02" "S1" 200 0 1;
    mkActivity "P001" "2023-10-16" "S2" 0 0 3;
    mkActivity "P003" "2023-11-05" "S2" 50 80 2;
    mkActivity "P002" "2023-11-07" "S1" 0 300 0 ].

(** An upload of two rows that passes validation, and the readers used
    with it: every date is accepted and no string reads as a number. *)
Definition sample_upload : RawFrame :=
  mkRaw required_columns
        [ [ RawStr "P001"; RawStr "2023-10-02"; RawStr "S1";
            RawNum 1000; RawNum 500; RawNum 5 ];
          [ RawStr "P001"; RawStr "2023-10-16"; RawStr "S2";
            RawNum 0; RawNum 0; RawNum 3 ] ].

Definition any_date (col : list RawCell) : bool := true.

Definition no_number (s : string) : option Q := None.

Definition question_mark (c : RawCell) : string := "?".

(** The records of [data] that belong to a date and slot. *)
Definition in_slot (target_date slot : string) (data : list ActivityRecord)
  : list ActivityRecord :=
  filter (fun r => (date r =? target_date) && (time_slot r =? slot)) data.

(** The columns read by the summary report. *)
Definition report_columns : list string :=
  [ "total_loyalty_points"; "player_id"; "total_deposits";
    "total_withdrawals"; "total_games_played" ].

(** The square root used with the sample data; the sample properties do
    not involve the standard deviation. *)
Definition no_sqrt (x : Q) : Q := 0.

(* ================================================================= *)
(** ** Column types *)

(** The dtype of a numeric column of the activity table.  [read_csv] and
    [pd.to_numeric] give a column of whole numbers the dtype int64 and any
    other numeric column float64; a selection of rows keeps the dtype of its
    column. *)
Inductive dtype : Type :=
| Int64
| Float64.

Record Dtypes : Type := mkDtypes {
  deposits_dtype : dtype;
  withdrawals_dtype : dtype;
  games_played_dtype : dtype
}.

(** Two's complement wrap-around to 64 bits. *)
Definition wrap_int64 (z : Z) : Z :=
  ((z + 2 ^ 63) mod 2 ^ 64 - 2 ^ 63)%Z.

(** The sum of the whole numbers of an int64 column, before wrap-around. *)
Definition int64_total (col : list Q) : Z :=
  fold_right Z.add 0%Z (map Qfloor col).

(** [Series.sum()] by dtype: an int64 column is added in int64 and wraps
    around silently; a float64 column is added in floating point, idealised
    as before. *)
Definition column_sum (dt : dtype) (col : list Q) : Q :=
  match dt with
  | Int64 => inject_Z (wrap_int64 (int64_total col))
  | Float64 => sum col
  end.

(** The calculator with the dtypes of the three numeric columns taken into
    account. *)
Module Typed.

Definition calculate_player_loyalty_points (dtypes : Dtypes)
    (player_data : list ActivityRecord) : LoyaltyPoints :=
  let total_deposits :=
    column_sum (deposits_dtype dtypes) (map deposits player_data) in
  let total_withdrawals :=
    column_sum (withdrawals_dtype dtypes) (map withdrawals player_data) in
  let total_games :=
    column_sum (games_played_dtype dtypes) (map games_played player_data) in
  let deposit_count := count_positive (map deposits player_data) in
  let withdrawal_count := count_positive (map withdrawals player_data) in
  let deposit_points := total_deposits * w_deposit_amount weights in
  let withdrawal_points := total_withdrawals * w_withdrawal_amount weights in
  let frequency_diff := Z.max (deposit_count - withdrawal_count) 0 in
  let frequency_points := inject_Z frequency_diff * w_deposit_frequency weights in
  let games_points := total_games * w_games_played weights in
  let total_points :=
    deposit_points + withdrawal_points + frequency_points + games_points in
  {| total_loyalty_points := total_points;
     deposit_points := deposit_points;
     withdrawal_points := withdrawal_points;
     frequency_points := frequency_points;
     games_points := games_points;
     total_deposits := total_deposits;
     total_withdrawals := total_withdrawals;
     total_games_played := total_games;
     deposit_transactions := deposit_count;
     withdrawal_transactions := withdrawal_count |}.

Definition calculate_slot_loyalty_points (dtypes : Dtypes)
    (data : list ActivityRecord) (target_date slot : string)
  : DataFrame LoyaltyRow :=
  let slot_data :=
    filter (fun r => (date r =? target_date) && (time_slot r =? slot)) data in
  match slot_data with
  | [] => empty_frame
  | _ =>
      let results :=
        map (fun pid =>
               let player_slot_data := for_player pid slot_data in
               let loyalty_calc :=
                 calculate_player_loyalty_points dtypes player_slot_data in
               {| row_player_id := pid;
                  row_date := Some target_date;
                  row_time_slot := Some slot;
                  points := loyalty_calc |})
            (unique (map player_id slot_data)) in
      DataFrame_of_records results
  end.

Definition monthly_results (dtypes : Dtypes) (data : list ActivityRecord)
  : list LoyaltyRow :=
  map (fun pid =>
         let player_data := for_player pid data in
         let loyalty_calc :=
           calculate_player_loyalty_points dtypes player_data in
         {| row_player_id := pid;
            row_date := None;
            row_time_slot := None;
            points := loyalty_calc |})
      (unique (map player_id data)).

Definition calculate_monthly_loyalty_points (dtypes : Dtypes)
    (data : list ActivityRecord) : result (DataFrame LoyaltyRow) :=
  let results := monthly_results dtypes data in
  let results_df := DataFrame_of_records results in
  sort_values results_df ["total_loyalty_points"].

End Typed.

(** An int64 column whose sum does not reach [2 ^ 63]; nothing is asked of
    a float64 column. *)
Definition column_in_range (dt : dtype) (col : list Q) : Prop :=
  match dt with
  | Int64 => (int64_total col < 2 ^ 63)%Z
  | Float64 => True
  end.

Definition table_in_range (dtypes : Dtypes) (data : list ActivityRecord)
  : Prop :=
  column_in_range (deposits_dtype dtypes) (map deposits data)
  /\ column_in_range (withdrawals_dtype dtypes) (map withdrawals data)
  /\ column_in_range (games_played_dtype dtypes) (map games_played data).

(** All three numeric columns hold whole numbers. *)
Definition all_int64 : Dtypes := mkDtypes Int64 Int64 Int64.

(** Two records of one player with [2 ^ 62] games each. *)
Definition marathon : list ActivityRecord :=
  [ mkActivity "P001" "2023-10-02" "S1" 0 0 (inject_Z (2 ^ 62));
    mkActivity "P001" "2023-10-02" "S2" 0 0 (inject_Z (2 ^ 62)) ].

(** The tie of the ranking example: 13.5 points each, 5 games against 10. *)
Definition P004 : ActivityRecord :=
  mkActivity "P004" "2023-10-02" "S1" 1000 300 10.

(* ================================================================= *)
(** ** Agreement up to rounding *)







(* ================================================================= *)
(** * Properties *)

(* ----------------------------------------------------------------- *)
(** ** Sums and counts *)

Lemma sum_nonneg (col : list Q) :
  Forall (fun x => 0 <= x) col -> 0 <= sum col.
Proof.
  induction 1 as [|x col Hx _ IH]; simpl.
  - apply Qle_refl.
  - lra.
Qed.

Lemma Qpositive_iff (x : Q) : Qpositive x = true <-> 0 < x.
Proof.
  unfold Qpositive. rewrite negb_true_iff.
  destruct (Qle_bool x 0) eqn:E.
  - apply Qle_bool_iff in E. split; [discriminate | lra].
  - split; [intros _ | reflexivity].
    apply Qnot_le_lt. intro H. apply Qle_bool_iff in H. congruence.
Qed.

Lemma count_positive_nonneg (col : list Q) : (0 <= count_positive col)%Z.
Proof. unfold count_positive. lia. Qed.

(** [count_positive] counts the entries that are greater than zero. *)
Lemma count_positive_spec (A : Type) (f : A -> Q) (l : list A) :
  count_positive (map f l)
  = Z.of_nat (List.length
                (filter (fun r => if Qlt_le_dec 0 (f r) then true else false) l)).
Proof.
  unfold count_positive. f_equal.
  induction l as [|a l IH]; simpl; [reflexivity|].
  destruct (Qlt_le_dec 0 (f a)) as [H|H].
  - apply Qpositive_iff in H. rewrite H. simpl. now rewrite IH.
  - destruct (Qpositive (f a)) eqn:E; [|exact IH].
    apply Qpositive_iff in E. lra.
Qed.

Lemma fsum_finite (A : Type) (f : A -> Q) (l : list A) :
  fsum (map (fun x => Finite (f x)) l) = Finite (sum (map f l)).
Proof.
  unfold fsum. induction l as [|a l IH]; simpl; [reflexivity|].
  now rewrite IH.
Qed.

Lemma sum_scaled (A : Type) (f : A -> Q) (c d : Q) (l : list A) :
  sum (map (fun x => f x / c * d) l) == sum (map f l) / c * d.
Proof.
  induction l as [|a l IH]; simpl.
  - unfold Qdiv. ring.
  - rewrite IH. unfold Qdiv. ring.
Qed.

(* ----------------------------------------------------------------- *)
(** ** Scoring one player *)

Lemma total_points_nonneg (player_data : list ActivityRecord) :
  Forall nonneg_record player_data ->
  0 <= total_loyalty_points (calculate_player_loyalty_points player_data).
Proof.
  intros H. simpl.
  assert (Hd : 0 <= sum (map deposits player_data)).
  { apply sum_nonneg, Forall_map. revert H. apply Forall_impl.
    intros r Hr. apply Hr. }
  assert (Hw : 0 <= sum (map withdrawals player_data)).
  { apply sum_nonneg, Forall_map. revert H. apply Forall_impl.
    intros r Hr. apply Hr. }
  assert (Hg : 0 <= sum (map games_played player_data)).
  { apply sum_nonneg, Forall_map. revert H. apply Forall_impl.
    intros r Hr. apply Hr. }
  assert (Hf : 0 <= inject_Z
                      (Z.max (count_positive (map deposits player_data)
                              - count_positive (map withdrawals player_data)) 0)).
  { change 0 with (inject_Z 0). rewrite <- Zle_Qle. apply Z.le_max_r. }
  unfold weights; simpl.
  revert Hd Hw Hg Hf.
  generalize (sum (map deposits player_data))
             (sum (map withdrawals player_data))
             (sum (map games_played player_data))
             (inject_Z
                (Z.max (count_positive (map deposits player_data)
                        - count_positive (map withdrawals player_data)) 0)).
  intros d w g f Hd Hw Hg Hf. lra.
Qed.

Lemma for_player_all (pid : string) (data : list ActivityRecord) :
  Forall (fun r => player_id r = pid) data -> for_player pid data = data.
Proof.
  unfold for_player. induction 1 as [|r data Hr _ IH]; simpl; [reflexivity|].
  rewrite Hr, String.eqb_refl. now rewrite IH.
Qed.

Lemma for_player_subset (pid : string) (P : ActivityRecord -> Prop)
    (data : list ActivityRecord) :
  Forall P data -> Forall P (for_player pid data).
Proof.
  unfold for_player. intros H. apply Forall_forall. intros r Hr.
  apply filter_In in Hr. destruct Hr as [Hr _].
  revert r Hr. now apply Forall_forall.
Qed.

Lemma unique_single (pid : string) (l : list string) :
  l <> [] -> Forall (fun x => x = pid) l -> unique l = [pid].
Proof.
  induction l as [|x l IH]; [congruence|].
  intros _ H. inversion H as [|? ? Hx Hl]; subst. simpl.
  destruct l as [|y l]; [reflexivity|].
  rewrite IH by (trivial; discriminate). simpl.
  now rewrite String.eqb_refl.
Qed.

Lemma unique_nonempty (l : list string) : l <> [] -> unique l <> [].
Proof. destruct l; [congruence | discriminate]. Qed.

(* ----------------------------------------------------------------- *)
(** ** The stable sort *)

Section StableSortFacts.

Variable A : Type.
Variable geb : A -> A -> bool.

Lemma insert_desc_perm (x : A) (l : list A) :
  Permutation (insert_desc geb x l) (x :: l).
Proof.
  induction l as [|y l IH]; simpl; [reflexivity|].
  destruct (geb x y); [reflexivity|].
  rewrite IH. apply perm_swap.
Qed.

Lemma stable_sort_desc_perm (l : list A) :
  Permutation (stable_sort_desc geb l) l.
Proof.
  induction l as [|x l IH]; simpl; [reflexivity|].
  rewrite insert_desc_perm. now constructor.
Qed.

Lemma stable_sort_desc_length (l : list A) :
  List.length (stable_sort_desc geb l) = List.length l.
Proof. apply Permutation_length, stable_sort_desc_perm. Qed.

Hypothesis geb_total : forall x y, geb x y = true \/ geb y x = true.
Hypothesis geb_trans :
  forall x y z, geb x y = true -> geb y z = true -> geb x z = true.

Lemma insert_desc_sorted (x : A) (l : list A) :
  StronglySorted (fun a b => geb a b = true) l ->
  StronglySorted (fun a b => geb a b = true) (insert_desc geb x l).
Proof.
  induction 1 as [|y l Hl IH Hy]; simpl.
  - repeat constructor.
  - destruct (geb x y) eqn:E.
    + constructor; [now constructor|].
      constructor; [exact E|].
      revert Hy. apply Forall_impl. intros z. now apply geb_trans.
    + constructor; [exact IH|].
      assert (Hyx : geb y x = true).
      { destruct (geb_total x y); congruence. }
      eapply Permutation_Forall.
      * symmetry. apply insert_desc_perm.
      * now constructor.
Qed.

Lemma stable_sort_desc_sorted (l : list A) :
  StronglySorted (fun a b => geb a b = true) (stable_sort_desc geb l).
Proof.
  induction l as [|x l IH]; simpl; [constructor|].
  now apply insert_desc_sorted.
Qed.
End StableSortFacts.

(** In a strongly sorted list an earlier position is related to every later
    one. *)
Lemma StronglySorted_nth_error (A : Type) (R : A -> A -> Prop) (l : list A) :
  StronglySorted R l ->
  forall i j a b, (i < j)%nat ->
    nth_error l i = Some a -> nth_error l j = Some b -> R a b.
Proof.
  induction 1 as [|x l Hl IH Hx]; intros i j a b Hij Hi Hj.
  - destruct i; discriminate.
  - destruct j as [|j]; [lia|]. simpl in Hj.
    destruct i as [|i]; simpl in Hi.
    + injection Hi as <-. apply nth_error_In in Hj.
      revert b Hj. now apply Forall_forall.
    + apply (IH i j); trivial. lia.
Qed.

Lemma StronglySorted_weaken (A : Type) (R S : A -> A -> Prop) (l : list A) :
  (forall a b, R a b -> S a b) -> StronglySorted R l -> StronglySorted S l.
Proof.
  intros HRS. induction 1 as [|x l Hl IH Hx]; constructor; trivial.
  revert Hx. apply Forall_impl. intros b. apply HRS.
Qed.

(* ----------------------------------------------------------------- *)
(** ** Comparisons *)

Lemma total_preorder_geb (A : Type) (cmp : A -> A -> comparison) :
  total_preorder_cmp cmp ->
  let geb := fun a b => match cmp a b with Lt => false | _ => true end in
  (forall x y, geb x y = true \/ geb y x = true)
  /\ (forall x y z, geb x y = true -> geb y z = true -> geb x z = true).
Proof.
  intros [Hanti Htrans Hcompat] geb. subst geb. split.
  - intros x y. rewrite (Hanti y x).
    destruct (cmp x y); simpl; auto.
  - intros x y z Hxy Hyz.
    destruct (cmp x y) eqn:Exy; [| discriminate |].
    + rewrite (Hcompat _ _ z Exy). exact Hyz.
    + destruct (cmp y z) eqn:Eyz; [| discriminate |].
      * rewrite (Hanti x z).
        assert (Ezy : cmp z y = Eq) by (rewrite Hanti, Eyz; reflexivity).
        rewrite (Hcompat _ _ x Ezy), (Hanti y x), Exy. reflexivity.
      * rewrite (Hanti x z).
        assert (Ezx : cmp z x = Lt).
        { apply Htrans with y; rewrite Hanti; [rewrite Eyz | rewrite Exy];
            reflexivity. }
        now rewrite Ezx.
Qed.

Lemma Qcompare_total_preorder : total_preorder_cmp Qcompare.
Proof.
  constructor.
  - intros a b. now rewrite Qcompare_antisym.
  - intros a b c. rewrite <- !Qlt_alt. apply Qlt_trans.
  - intros a b c H. apply Qeq_alt in H. now rewrite H.
Qed.

Lemma Ascii_compare_lt_trans (a b c : ascii) :
  Ascii.compare a b = Lt -> Ascii.compare b c = Lt -> Ascii.compare a c = Lt.
Proof.
  unfold Ascii.compare. rewrite !N.compare_lt_iff. apply N.lt_trans.
Qed.

Lemma String_compare_lt_trans (s t u : string) :
  String.compare s t = Lt -> String.compare t u = Lt -> String.compare s u = Lt.
Proof.
  revert t u. induction s as [|a s IH]; intros [|b t] [|c u]; simpl;
    try discriminate; trivial.
  destruct (Ascii.compare a b) eqn:Eab; try discriminate;
    destruct (Ascii.compare b c) eqn:Ebc; try discriminate; intros H1 H2.
  - apply Ascii.compare_eq_iff in Eab, Ebc. subst.
    assert (E : Ascii.compare c c = Eq).
    { unfold Ascii.compare. apply N.compare_refl. }
    rewrite E. now apply IH with t.
  - apply Ascii.compare_eq_iff in Eab. subst. now rewrite Ebc.
  - apply Ascii.compare_eq_iff in Ebc. subst. now rewrite Eab.
  - now rewrite (Ascii_compare_lt_trans _ _ _ Eab Ebc).
Qed.

Lemma String_compare_total_preorder : total_preorder_cmp String.compare.
Proof.
  constructor.
  - apply String.compare_antisym.
  - apply String_compare_lt_trans.
  - intros a b c H. apply String.compare_eq_iff in H. now subst.
Qed.

Lemma cell_compare_total_preorder : total_preorder_cmp cell_compare.
Proof.
  destruct Qcompare_total_preorder as [Qa Qt Qc].
  destruct String_compare_total_preorder as [Sa St Sc].
  constructor.
  - intros [x|s] [y|t]; simpl; auto.
  - intros [x|s] [y|t] [z|u]; simpl; try discriminate; eauto.
  - intros [x|s] [y|t] [z|u]; simpl; try discriminate; eauto.
Qed.

Lemma key_compare_total_preorder : total_preorder_cmp key_compare.
Proof.
  destruct cell_compare_total_preorder as [Ca Ct Cc].
  constructor.
  - intros [x|] [y|]; simpl; auto.
  - intros [x|] [y|] [z|]; simpl; try discriminate; eauto.
  - intros [x|] [y|] [z|]; simpl; try discriminate; eauto.
Qed.

Lemma row_compare_total_preorder (by_ : list string) :
  total_preorder_cmp (row_compare by_).
Proof.
  destruct key_compare_total_preorder as [Ka Kt Kc].
  unfold row_compare. constructor.
  - intros a b. induction by_ as [|c by_ IH]; simpl; [reflexivity|].
    rewrite (Ka (get a c) (get b c)).
    destruct (key_compare (get b c) (get a c)); simpl; auto.
  - intros a b c. induction by_ as [|k by_ IH]; simpl; [discriminate|].
    destruct (key_compare (get a k) (get b k)) eqn:Eab; try discriminate;
      destruct (key_compare (get b k) (get c k)) eqn:Ebc; try discriminate;
      intros H1 H2.
    + rewrite (Kc _ _ (get c k) Eab), Ebc. auto.
    + now rewrite (Kc _ _ (get c k) Eab), Ebc.
    + assert (Ecb : key_compare (get c k) (get b k) = Eq)
        by (rewrite Ka, Ebc; reflexivity).
      rewrite (Ka (get a k) (get c k)), (Kc _ _ (get a k) Ecb).
      rewrite (Ka (get b k) (get a k)), Eab. reflexivity.
    + now rewrite (Kt _ _ _ Eab Ebc).
  - intros a b c. induction by_ as [|k by_ IH]; simpl; [reflexivity|].
    destruct (key_compare (get a k) (get b k)) eqn:Eab; try discriminate.
    intros H. rewrite (Kc _ _ (get c k) Eab).
    destruct (key_compare (get b k) (get c k)); auto.
Qed.

Lemma not_below_total (by_ : list string) (a b : LoyaltyRow) :
  not_below by_ a b = true \/ not_below by_ b a = true.
Proof.
  apply (total_preorder_geb (row_compare_total_preorder by_)).
Qed.

Lemma not_below_trans (by_ : list string) (a b c : LoyaltyRow) :
  not_below by_ a b = true -> not_below by_ b c = true ->
  not_below by_ a c = true.
Proof.
  apply (total_preorder_geb (row_compare_total_preorder by_)).
Qed.

(* ----------------------------------------------------------------- *)
(** ** Frames *)

Lemma sort_values_one (df : DataFrame LoyaltyRow) (col : string) :
  has_column df col = true ->
  sort_values df [col]
  = Ok {| columns := columns df;
          rows := stable_sort_desc (not_below [col]) (rows df) |}.
Proof. intros H. unfold sort_values. simpl. now rewrite H. Qed.

Lemma sort_values_two (df : DataFrame LoyaltyRow) (c1 c2 : string) :
  has_column df c1 = true -> has_column df c2 = true ->
  sort_values df [c1; c2]
  = Ok {| columns := columns df;
          rows := stable_sort_desc (not_below [c1; c2]) (rows df) |}.
Proof. intros H1 H2. unfold sort_values. simpl. now rewrite H1, H2. Qed.

Lemma monthly_results_nonempty (data : list ActivityRecord) :
  data <> [] -> monthly_results data <> [].
Proof.
  intros H. unfold monthly_results.
  destruct (unique (map player_id data)) eqn:E; [|discriminate].
  exfalso. revert E. apply unique_nonempty.
  destruct data; [congruence | discriminate].
Qed.

Lemma monthly_results_columns (data : list ActivityRecord) :
  data <> [] ->
  columns (DataFrame_of_records (monthly_results data))
  = "player_id" :: points_keys.
Proof.
  intros H. apply monthly_results_nonempty in H.
  unfold monthly_results in *.
  destruct (unique (map player_id data)); [now elim H | reflexivity].
Qed.

(** On a non-empty table the monthly calculation returns the scored
    players in sorted order. *)
Lemma calculate_monthly_ok (data : list ActivityRecord) :
  data <> [] ->
  calculate_monthly_loyalty_points data
  = Ok {| columns := "player_id" :: points_keys;
          rows := stable_sort_desc (not_below ["total_loyalty_points"])
                                   (monthly_results data) |}.
Proof.
  intros H. unfold calculate_monthly_loyalty_points.
  rewrite sort_values_one.
  - now rewrite monthly_results_columns.
  - unfold has_column. now rewrite monthly_results_columns.
Qed.

Lemma monthly_results_nonneg (data : list ActivityRecord) :
  Forall nonneg_record data ->
  Forall (fun r => 0 <= points_of r) (monthly_results data).
Proof.
  intros H. unfold monthly_results. apply Forall_map, Forall_forall.
  intros pid _. apply total_points_nonneg. now apply for_player_subset.
Qed.

Lemma not_below_points (a b : LoyaltyRow) :
  not_below ["total_loyalty_points"] a b = true <-> points_of b <= points_of a.
Proof.
  unfold not_below, row_compare, points_of. simpl.
  rewrite Qge_alt.
  destruct (Qcompare (total_loyalty_points (points a))
                      (total_loyalty_points (points b)));
    split; congruence.
Qed.

Lemma sorted_by_points_descending (l : list LoyaltyRow) :
  descending (stable_sort_desc (not_below ["total_loyalty_points"]) l).
Proof.
  unfold descending.
  eapply StronglySorted_weaken; [| apply stable_sort_desc_sorted ].
  - intros a b. apply not_below_points.
  - apply not_below_total.
  - apply not_below_trans.
Qed.

(* ----------------------------------------------------------------- *)
(** ** Ranks *)

Lemma range_from_one (n : nat) :
  range 1 (Z.of_nat n + 1) = map Z.of_nat (seq 1 n).
Proof.
  unfold range. replace (Z.to_nat (Z.of_nat n + 1 - 1)) with n by lia.
  rewrite <- seq_shift, map_map. apply map_ext. intros i. lia.
Qed.

Lemma assign_rank_entries (l : list LoyaltyRow) :
  map entry (assign_rank l) = l.
Proof.
  unfold assign_rank. rewrite map_map. simpl.
  rewrite <- (map_map fst (fun x => x)), map_id.
  rewrite range_from_one.
  generalize 1%nat. induction l as [|x l IH]; intros k; simpl;
    [reflexivity|]. now rewrite IH.
Qed.

Lemma assign_rank_ranks (l : list LoyaltyRow) :
  map rank (assign_rank l) = map Z.of_nat (seq 1 (List.length l)).
Proof.
  unfold assign_rank. rewrite map_map. simpl.
  rewrite range_from_one.
  generalize 1%nat. induction l as [|x l IH]; intros k; simpl;
    [reflexivity|]. now rewrite IH.
Qed.

Lemma assign_rank_length (l : list LoyaltyRow) :
  List.length (assign_rank l) = List.length l.
Proof. now rewrite <- (length_map entry), assign_rank_entries. Qed.

(** A ranked row sits at the position given by its rank. *)
Lemma assign_rank_position (l : list LoyaltyRow) (a : RankedRow) :
  In a (assign_rank l) ->
  exists i, nth_error l i = Some (entry a) /\ rank a = Z.of_nat (S i).
Proof.
  intros H. apply In_nth_error in H. destruct H as [i Hi].
  exists i. split.
  - rewrite <- (assign_rank_entries l). now apply map_nth_error.
  - assert (Hr : nth_error (map rank (assign_rank l)) i = Some (rank a))
      by now apply map_nth_error.
    rewrite assign_rank_ranks in Hr.
    assert (Hlt : (i < List.length l)%nat).
    { rewrite <- assign_rank_length. apply nth_error_Some.
      rewrite Hi. discriminate. }
    rewrite nth_error_map, nth_error_seq in Hr.
    apply Nat.ltb_lt in Hlt. rewrite Hlt in Hr.
    cbn [option_map Nat.add] in Hr. now injection Hr.
Qed.

Lemma ranks_increasing (n k : nat) :
  StronglySorted Z.lt (map Z.of_nat (seq k n)).
Proof.
  revert k. induction n as [|n IH]; intros k; simpl; constructor.
  - apply IH.
  - apply Forall_map, Forall_forall. intros j Hj.
    apply in_seq in Hj. lia.
Qed.

Lemma ranks_distinct (n k : nat) : NoDup (map Z.of_nat (seq k n)).
Proof.
  apply Finite.Injective_map_NoDup; [| apply seq_NoDup].
  intros i j. apply Nat2Z.inj.
Qed.

(* ================================================================= *)
(** * The scorer *)

Lemma calculate_player_formula (data : list ActivityRecord) :
  fixed_weight_formula data (calculate_player_loyalty_points data).
Proof.
  unfold fixed_weight_formula, transactions. simpl.
  rewrite <- !count_positive_spec. repeat split; reflexivity.
Qed.

Lemma monthly_results_single (pid : string) (data : list ActivityRecord) :
  data <> [] ->
  Forall (fun r => player_id r = pid) data ->
  monthly_results data
  = [ {| row_player_id := pid; row_date := None; row_time_slot := None;
         points := calculate_player_loyalty_points data |} ].
Proof.
  intros Hne Hall. unfold monthly_results.
  rewrite (@unique_single pid).
  - simpl. now rewrite for_player_all.
  - destruct data; [congruence | discriminate].
  - now apply Forall_map.
Qed.

(** C2.  For the records of one player, monthly scoring returns exactly one
    breakdown, the one computed from these records, and every breakdown
    computed from a group of records obeys the fixed-weight formula: the
    totals are the column sums, the transaction counts count the records
    with a positive deposit (withdrawal), deposit points are 0.01 per unit
    deposited, withdrawal points 0.005 per unit withdrawn, frequency points
    0.001 per deposit transaction in excess of the withdrawal transactions
    (never negative), games points 0.2 per game, and the total is their sum.
    A single record with deposits 1000, withdrawals 500 and 5 games gives
    10, 2.5, 0 and 1 points, 13.5 in total. *)
Theorem scorer_fixed_weight_formula :
  (forall (pid : string) (data : list ActivityRecord),
      data <> [] ->
      Forall (fun r => player_id r = pid) data ->
      exists b : LoyaltyPoints,
        calculate_monthly_loyalty_points data = Ok (single_player_frame pid b)
        /\ b = calculate_player_loyalty_points data
        /\ fixed_weight_formula data b)
  /\ (forall player_data : list ActivityRecord,
        fixed_weight_formula player_data
          (calculate_player_loyalty_points player_data))
  /\ (forall pid d s : string,
        let b := calculate_player_loyalty_points
                   [mkActivity pid d s 1000 500 5] in
        deposit_points b == 10
        /\ withdrawal_points b == 2.5
        /\ deposit_transactions b = 1%Z
        /\ withdrawal_transactions b = 1%Z
        /\ frequency_points b == 0
        /\ games_points b == 1
        /\ total_loyalty_points b == 13.5).
Proof.
  split; [| split].
  - intros pid data Hne Hall.
    exists (calculate_player_loyalty_points data).
    split; [| split; [reflexivity | apply calculate_player_formula]].
    rewrite calculate_monthly_ok by assumption.
    now rewrite (monthly_results_single Hne Hall).
  - apply calculate_player_formula.
  - intros pid d s. simpl. repeat split; reflexivity.
Qed.

Lemma scorer_fixed_weight_formula_P001 :
  exists b : LoyaltyPoints,
    calculate_monthly_loyalty_points [P001_first]
    = Ok (single_player_frame "P001" b)
    /\ b = calculate_player_loyalty_points [P001_first]
    /\ fixed_weight_formula [P001_first] b.
Proof.
  apply (proj1 scorer_fixed_weight_formula "P001" [P001_first]).
  - discriminate.
  - repeat constructor.
Defined.

Lemma int64_total_nonneg (col : list Q) :
  Forall (fun x => 0 <= x) col -> (0 <= int64_total col)%Z.
Proof.
  unfold int64_total. induction 1 as [|x col Hx _ IH]; simpl; [lia|].
  apply Qfloor_resp_le in Hx. change (Qfloor 0) with 0%Z in Hx. lia.
Qed.

(** A selection of rows of a column without negative entries does not have
    a larger sum than the column. *)
Lemma int64_total_selection (f : ActivityRecord -> Q)
    (keep : ActivityRecord -> bool) (data : list ActivityRecord) :
  Forall (fun r => 0 <= f r) data ->
  (int64_total (map f (filter keep data)) <= int64_total (map f data))%Z.
Proof.
  unfold int64_total. induction 1 as [|r data Hr _ IH]; simpl; [lia|].
  apply Qfloor_resp_le in Hr. change (Qfloor 0) with 0%Z in Hr.
  destruct (keep r); simpl; lia.
Qed.

Lemma wrap_int64_in_range (z : Z) :
  (0 <= z < 2 ^ 63)%Z -> wrap_int64 z = z.
Proof.
  intros H. unfold wrap_int64. rewrite Z.mod_small; lia.
Qed.

Lemma column_sum_nonneg (dt : dtype) (col : list Q) :
  Forall (fun x => 0 <= x) col -> column_in_range dt col ->
  0 <= column_sum dt col.
Proof.
  intros Hcol Hrange. destruct dt; simpl in *.
  - rewrite wrap_int64_in_range.
    + change 0 with (inject_Z 0). rewrite <- Zle_Qle.
      now apply int64_total_nonneg.
    + split; [now apply int64_total_nonneg | exact Hrange].
  - now apply sum_nonneg.
Qed.

Lemma column_in_range_selection (dt : dtype) (f : ActivityRecord -> Q)
    (keep : ActivityRecord -> bool) (data : list ActivityRecord) :
  Forall (fun r => 0 <= f r) data ->
  column_in_range dt (map f data) ->
  column_in_range dt (map f (filter keep data)).
Proof.
  intros Hf. destruct dt; simpl; [|trivial].
  assert (H := int64_total_selection f keep Hf). lia.
Qed.

Lemma nonneg_selection (keep : ActivityRecord -> bool)
    (data : list ActivityRecord) :
  Forall nonneg_record data -> Forall nonneg_record (filter keep data).
Proof.
  intros H. apply Forall_forall. intros r Hr. apply filter_In in Hr.
  exact (proj1 (Forall_forall _ _) H r (proj1 Hr)).
Qed.

Lemma table_in_range_selection (dtypes : Dtypes)
    (keep : ActivityRecord -> bool) (data : list ActivityRecord) :
  Forall nonneg_record data ->
  table_in_range dtypes data ->
  table_in_range dtypes (filter keep data).
Proof.
  intros Hn [Hd [Hw Hg]].
  repeat split; apply column_in_range_selection; trivial;
    revert Hn; apply Forall_impl; intros r Hr; apply Hr.
Qed.

Lemma typed_total_points_nonneg (dtypes : Dtypes)
    (player_data : list ActivityRecord) :
  Forall nonneg_record player_data ->
  table_in_range dtypes player_data ->
  0 <= total_loyalty_points
         (Typed.calculate_player_loyalty_points dtypes player_data).
Proof.
  intros H [Rd [Rw Rg]]. simpl.
  assert (Hd : 0 <= column_sum (deposits_dtype dtypes)
                               (map deposits player_data)).
  { apply column_sum_nonneg; [|exact Rd]. apply Forall_map.
    revert H. apply Forall_impl. intros r Hr. apply Hr. }
  assert (Hw : 0 <= column_sum (withdrawals_dtype dtypes)
                               (map withdrawals player_data)).
  { apply column_sum_nonneg; [|exact Rw]. apply Forall_map.
    revert H. apply Forall_impl. intros r Hr. apply Hr. }
  assert (Hg : 0 <= column_sum (games_played_dtype dtypes)
                               (map games_played player_data)).
  { apply column_sum_nonneg; [|exact Rg]. apply Forall_map.
    revert H. apply Forall_impl. intros r Hr. apply Hr. }
  assert (Hf : 0 <= inject_Z
                      (Z.max (count_positive (map deposits player_data)
                              - count_positive (map withdrawals player_data)) 0)).
  { change 0 with (inject_Z 0). rewrite <- Zle_Qle. apply Z.le_max_r. }
  unfold weights; simpl.
  revert Hd Hw Hg Hf.
  generalize (column_sum (deposits_dtype dtypes) (map deposits player_data))
             (column_sum (withdrawals_dtype dtypes)
                         (map withdrawals player_data))
             (column_sum (games_played_dtype dtypes)
                         (map games_played player_data))
             (inject_Z
                (Z.max (count_positive (map deposits player_data)
                        - count_positive (map withdrawals player_data)) 0)).
  intros d w g f Hd Hw Hg Hf. lra.
Qed.

Lemma typed_monthly_ok (dtypes : Dtypes) (data : list ActivityRecord) :
  data <> [] ->
  Typed.calculate_monthly_loyalty_points dtypes data
  = Ok {| columns := "player_id" :: points_keys;
          rows := stable_sort_desc (not_below ["total_loyalty_points"])
                                   (Typed.monthly_results dtypes data) |}.
Proof.
  intros H. unfold Typed.calculate_monthly_loyalty_points.
  assert (Hu : unique (map player_id data) <> []).
  { apply unique_nonempty. destruct data; [congruence | discriminate]. }
  assert (Hcols : columns (DataFrame_of_records
                             (Typed.monthly_results dtypes data))
                  = "player_id" :: points_keys).
  { unfold Typed.monthly_results.
    destruct (unique (map player_id data)); [congruence | reflexivity]. }
  rewrite sort_values_one.
  - now rewrite Hcols.
  - unfold has_column. now rewrite Hcols.
Qed.

(** On float64 columns the calculator with dtypes is the calculator of
    the first part. *)
Lemma typed_float64_agrees (data : list ActivityRecord) :
  let float64_columns := mkDtypes Float64 Float64 Float64 in
  Typed.calculate_player_loyalty_points float64_columns data
  = calculate_player_loyalty_points data
  /\ Typed.calculate_monthly_loyalty_points float64_columns data
     = calculate_monthly_loyalty_points data
  /\ forall target_date slot : string,
      Typed.calculate_slot_loyalty_points float64_columns data target_date slot
      = calculate_slot_loyalty_points data target_date slot.
Proof.
  repeat split.
Qed.

(** Two records of one player with [2 ^ 62] games each pass the validator's
    sign check, but in an int64 column their sum wraps around to
    [- 2 ^ 63], and the player's total is negative. *)
Lemma int64_games_total_wraps_negative :
  Forall nonneg_record marathon
  /\ exists df row,
      Typed.calculate_monthly_loyalty_points all_int64 marathon = Ok df
      /\ rows df = [row]
      /\ total_games_played (points row) == inject_Z (- 2 ^ 63)
      /\ total_loyalty_points (points row) < 0
      /\ ~ Forall (fun r => 0 <= points_of r) (rows df).
Proof.
  split; [repeat constructor; discriminate|].
  eexists. eexists. split; [reflexivity|]. split; [reflexivity|].
  split; [reflexivity|]. split; [reflexivity|].
  intros H. inversion H as [|? ? Hrow _]; subst.
  vm_compute in Hrow. now apply Hrow.
Qed.

(** C9, amended.  When no record has a negative deposit, withdrawal or
    game count and no int64 column sum of the table reaches [2 ^ 63], every
    breakdown has a total that is at least zero: for any group of records
    scored directly, for every row of a slot result, and for every row of
    the monthly result, which exists as soon as there is a record. *)
Theorem total_loyalty_points_nonnegative_in_range (dtypes : Dtypes)
    (data : list ActivityRecord) :
  Forall nonneg_record data ->
  table_in_range dtypes data ->
  0 <= total_loyalty_points
         (Typed.calculate_player_loyalty_points dtypes data)
  /\ (forall target_date slot : string,
         Forall (fun r => 0 <= points_of r)
                (rows (Typed.calculate_slot_loyalty_points
                         dtypes data target_date slot)))
  /\ (data <> [] ->
      exists df,
        Typed.calculate_monthly_loyalty_points dtypes data = Ok df
        /\ rows df <> []
        /\ Forall (fun r => 0 <= points_of r) (rows df)).
Proof.
  intros H Hrange.
  split; [now apply typed_total_points_nonneg | split].
  - intros target_date slot. unfold Typed.calculate_slot_loyalty_points.
    set (slot_data := filter _ data).
    assert (Hs : Forall nonneg_record slot_data)
      by now apply nonneg_selection.
    assert (Rs : table_in_range dtypes slot_data)
      by now apply table_in_range_selection.
    destruct slot_data as [|r0 rest] eqn:E; [constructor|].
    unfold DataFrame_of_records. cbn [rows].
    apply Forall_map, Forall_forall. intros pid _.
    apply typed_total_points_nonneg.
    + now apply nonneg_selection.
    + now apply table_in_range_selection.
  - intros Hne. eexists. split; [now apply typed_monthly_ok|].
    cbn [rows].
    assert (Hperm := stable_sort_desc_perm
                       (not_below ["total_loyalty_points"])
                       (Typed.monthly_results dtypes data)).
    split.
    + intros E. rewrite E in Hperm. apply Permutation_nil in Hperm.
      unfold Typed.monthly_results in Hperm. apply map_eq_nil in Hperm.
      revert Hperm. apply unique_nonempty.
      destruct data; [congruence | discriminate].
    + apply (Permutation_Forall (Permutation_sym Hperm)).
      unfold Typed.monthly_results. apply Forall_map, Forall_forall.
      intros pid _. apply typed_total_points_nonneg.
      * now apply nonneg_selection.
      * now apply table_in_range_selection.
Qed.

Lemma total_loyalty_points_nonnegative_in_range_sample :
  Forall nonneg_record [P001_first; P001_second; idle_player]
  /\ table_in_range all_int64 [P001_first; P001_second; idle_player]
  /\ exists df,
      Typed.calculate_monthly_loyalty_points
        all_int64 [P001_first; P001_second; idle_player]
      = Ok df
      /\ rows df <> []
      /\ Forall (fun r => 0 <= points_of r) (rows df).
Proof.
  assert (H : Forall nonneg_record [P001_first; P001_second; idle_player]).
  { repeat constructor; discriminate. }
  assert (R : table_in_range all_int64
                             [P001_first; P001_second; idle_player]).
  { repeat split. }
  split; [exact H | split; [exact R|]].
  apply (total_loyalty_points_nonnegative_in_range H R). discriminate.
Defined.

(** C10.  On a non-empty table the monthly calculation returns the scored
    players, one row each, already arranged in descending order of
    [total_loyalty_points]; no call to the ranking function is involved. *)
Theorem monthly_result_sorted_descending (data : list ActivityRecord) :
  data <> [] ->
  exists df,
    calculate_monthly_loyalty_points data = Ok df
    /\ descending (rows df)
    /\ Permutation (rows df) (monthly_results data).
Proof.
  intros Hne. eexists. split; [now apply calculate_monthly_ok|].
  cbn [rows]. split.
  - apply sorted_by_points_descending.
  - apply stable_sort_desc_perm.
Qed.

Lemma monthly_result_sorted_descending_sample :
  [idle_player; P001_first; P001_second] <> []
  /\ exists df,
      calculate_monthly_loyalty_points [idle_player; P001_first; P001_second]
      = Ok df
      /\ descending (rows df)
      /\ Permutation (rows df)
                     (monthly_results [idle_player; P001_first; P001_second]).
Proof.
  split; [discriminate|].
  apply monthly_result_sorted_descending. discriminate.
Defined.

Lemma slot_without_match_is_empty (data : list ActivityRecord)
    (target_date slot : string) :
  (forall r, In r data -> date r = target_date -> time_slot r <> slot) ->
  calculate_slot_loyalty_points data target_date slot = empty_frame.
Proof.
  intros H. unfold calculate_slot_loyalty_points.
  destruct (filter _ data) as [|r rest] eqn:E; [reflexivity|].
  assert (Hr : In r (r :: rest)) by now left.
  rewrite <- E in Hr. apply filter_In in Hr. destruct Hr as [Hin Hb].
  apply andb_true_iff in Hb. destruct Hb as [Hd Hs].
  apply String.eqb_eq in Hd, Hs. now elim (H r Hin Hd).
Qed.

(** C5.  Scoring an empty table: the slot calculation returns the empty
    frame, but the monthly calculation raises [KeyError], because the frame
    built from an empty list of results has no [total_loyalty_points] column
    to sort by. *)
Theorem monthly_scoring_of_empty_table_raises :
  calculate_monthly_loyalty_points []
  = Raise (KeyError "total_loyalty_points")
  /\ (forall target_date slot : string,
         calculate_slot_loyalty_points [] target_date slot = empty_frame).
Proof. split; reflexivity. Qed.

(* ================================================================= *)
(** * The ranker *)

Lemma rank_players_ok (df : DataFrame LoyaltyRow) (tie_breaker : string) :
  has_column df "total_loyalty_points" = true ->
  has_column df tie_breaker = true ->
  rank_players_by_loyalty_points df tie_breaker
  = Ok {| columns := with_column (columns df) "rank";
          rows := assign_rank
                    (stable_sort_desc
                       (not_below ["total_loyalty_points"; tie_breaker])
                       (rows df)) |}.
Proof.
  intros H1 H2. unfold rank_players_by_loyalty_points.
  now rewrite sort_values_two.
Qed.

(** C7.  Ranking a frame of N scored players (a frame that has the
    [total_loyalty_points] column and the tie-breaker column) returns the
    same players with the ranks 1, 2, ..., N in this order: strictly
    increasing from 1, without gap or repetition, whatever the scores. *)
Theorem ranks_are_one_to_n (df : DataFrame LoyaltyRow) (tie_breaker : string) :
  has_column df "total_loyalty_points" = true ->
  has_column df tie_breaker = true ->
  exists ranked_data,
    rank_players_by_loyalty_points df tie_breaker = Ok ranked_data
    /\ map rank (rows ranked_data)
       = map Z.of_nat (seq 1 (List.length (rows df)))
    /\ StronglySorted Z.lt (map rank (rows ranked_data))
    /\ NoDup (map rank (rows ranked_data))
    /\ Permutation (map entry (rows ranked_data)) (rows df).
Proof.
  intros H1 H2. eexists. split; [now apply rank_players_ok|].
  cbn [rows]. rewrite assign_rank_ranks, assign_rank_entries.
  rewrite stable_sort_desc_length.
  repeat split.
  - apply ranks_increasing.
  - apply ranks_distinct.
  - apply stable_sort_desc_perm.
Qed.

(** [idle_player] twice under other names: three players, two of them tied
    at zero points. *)
Lemma ranks_are_one_to_n_with_ties :
  let df := session_results
              [idle_player; P001_first;
               mkActivity "P003" "2023-10-02" "S1" 0 0 0] in
  exists ranked_data,
    rank_players_by_loyalty_points df default_tie_breaker = Ok ranked_data
    /\ map rank (rows ranked_data) = map Z.of_nat (seq 1 (List.length (rows df)))
    /\ StronglySorted Z.lt (map rank (rows ranked_data))
    /\ NoDup (map rank (rows ranked_data))
    /\ Permutation (map entry (rows ranked_data)) (rows df).
Proof.
  apply ranks_are_one_to_n; reflexivity.
Defined.

Lemma not_below_points_then_games (a b : LoyaltyRow) :
  points_of a == points_of b ->
  games_of b < games_of a ->
  not_below ["total_loyalty_points"; default_tie_breaker] b a = false.
Proof.
  intros Hp Hg. unfold not_below, row_compare, default_tie_breaker.
  cbn [map].
  change (get b "total_loyalty_points") with (Some (Num (points_of b))).
  change (get a "total_loyalty_points") with (Some (Num (points_of a))).
  change (get b "total_games_played") with (Some (Num (games_of b))).
  change (get a "total_games_played") with (Some (Num (games_of a))).
  assert (E1 : Qcompare (points_of b) (points_of a) = Eq).
  { apply Qeq_alt. now symmetry. }
  assert (E2 : Qcompare (games_of b) (games_of a) = Lt)
    by now apply Qlt_alt.
  cbn [lex_compare key_compare cell_compare]. rewrite E1.
  cbn [lex_compare key_compare cell_compare]. now rewrite E2.
Qed.

Lemma ranked_pair_order (df : DataFrame LoyaltyRow) (a b : RankedRow) :
  In a (assign_rank
          (stable_sort_desc
             (not_below ["total_loyalty_points"; default_tie_breaker])
             (rows df))) ->
  In b (assign_rank
          (stable_sort_desc
             (not_below ["total_loyalty_points"; default_tie_breaker])
             (rows df))) ->
  points_of (entry a) == points_of (entry b) ->
  games_of (entry b) < games_of (entry a) ->
  (rank a < rank b)%Z.
Proof.
  intros Ha Hb Hp Hg.
  apply assign_rank_position in Ha, Hb.
  destruct Ha as [i [Hi Ri]], Hb as [j [Hj Rj]].
  rewrite Ri, Rj.
  destruct (Nat.lt_trichotomy i j) as [Hlt | [Heq | Hgt]].
  - lia.
  - subst j. rewrite Hi in Hj. injection Hj as Hj. rewrite Hj in Hg.
    exfalso. revert Hg. apply Qlt_irrefl.
  - exfalso.
    assert (Hs : StronglySorted
                   (fun x y => not_below ["total_loyalty_points";
                                          default_tie_breaker] x y = true)
                   (stable_sort_desc
                      (not_below ["total_loyalty_points"; default_tie_breaker])
                      (rows df))).
    { apply stable_sort_desc_sorted;
        [apply not_below_total | apply not_below_trans]. }
    assert (Hba := StronglySorted_nth_error Hs Hgt Hj Hi).
    simpl in Hba. rewrite (not_below_points_then_games _ _ Hp Hg) in Hba.
    discriminate.
Qed.

(** C8.  With the default tie-breaker the ranker keeps every player of the
    frame, and of two players of the frame whose [total_loyalty_points] are
    equal the one with more [total_games_played] is placed at the smaller
    rank: both are in the ranked frame, and any two ranked rows with equal
    points and different games stand in this order. *)
Theorem tie_broken_by_games_played (df : DataFrame LoyaltyRow) :
  has_column df "total_loyalty_points" = true ->
  has_column df "total_games_played" = true ->
  exists ranked_data,
    rank_players_by_loyalty_points df default_tie_breaker = Ok ranked_data
    /\ Permutation (map entry (rows ranked_data)) (rows df)
    /\ (forall x y : LoyaltyRow,
          In x (rows df) -> In y (rows df) ->
          points_of x == points_of y ->
          games_of y < games_of x ->
          exists a b : RankedRow,
            In a (rows ranked_data) /\ In b (rows ranked_data)
            /\ entry a = x /\ entry b = y
            /\ (rank a < rank b)%Z)
    /\ forall a b : RankedRow,
        In a (rows ranked_data) -> In b (rows ranked_data) ->
        points_of (entry a) == points_of (entry b) ->
        games_of (entry b) < games_of (entry a) ->
        (rank a < rank b)%Z.
Proof.
  intros H1 H2. eexists. split; [now apply rank_players_ok|].
  cbn [rows].
  assert (Hperm : Permutation
                    (map entry
                       (assign_rank
                          (stable_sort_desc
                             (not_below ["total_loyalty_points";
                                         default_tie_breaker])
                             (rows df))))
                    (rows df)).
  { rewrite assign_rank_entries. apply stable_sort_desc_perm. }
  split; [exact Hperm | split].
  - intros x y Hx Hy Hp Hg.
    apply (Permutation_in _ (Permutation_sym Hperm)) in Hx, Hy.
    apply in_map_iff in Hx, Hy.
    destruct Hx as [a [Ea Ha]], Hy as [b [Eb Hb]].
    exists a, b. repeat split; trivial.
    apply (ranked_pair_order df); trivial; now rewrite Ea, Eb.
  - intros a b. apply ranked_pair_order.
Qed.

(** Two players with 13.5 points each, P001 with 5 games and P004 with 10:
    scoring leaves P001 first, ranking places P004 at rank 1 and P001 at
    rank 2. *)
Lemma tie_broken_by_games_played_sample :
  let df := session_results [P001_first; P004] in
  map row_player_id (rows df) = ["P001"; "P004"]
  /\ exists ranked_data,
      rank_players_by_loyalty_points df default_tie_breaker = Ok ranked_data
      /\ map (fun r => (row_player_id (entry r), rank r)) (rows ranked_data)
         = [("P004", 1%Z); ("P001", 2%Z)]
      /\ Permutation (map entry (rows ranked_data)) (rows df)
      /\ (forall x y : LoyaltyRow,
            In x (rows df) -> In y (rows df) ->
            points_of x == points_of y ->
            games_of y < games_of x ->
            exists a b : RankedRow,
              In a (rows ranked_data) /\ In b (rows ranked_data)
              /\ entry a = x /\ entry b = y
              /\ (rank a < rank b)%Z)
      /\ forall a b : RankedRow,
          In a (rows ranked_data) -> In b (rows ranked_data) ->
          points_of (entry a) == points_of (entry b) ->
          games_of (entry b) < games_of (entry a) ->
          (rank a < rank b)%Z.
Proof.
  cbv zeta. split; [reflexivity|].
  destruct (@tie_broken_by_games_played
              (session_results [P001_first; P004]) eq_refl eq_refl)
    as [ranked_data [Hok Hrest]].
  exists ranked_data. split; [exact Hok | split; [| exact Hrest]].
  assert (Hrun : rank_players_by_loyalty_points
                   (session_results [P001_first; P004]) default_tie_breaker
                 = Ok ranked_data) by exact Hok.
  vm_compute in Hrun. injection Hrun as <-. reflexivity.
Defined.

(* ================================================================= *)
(** * The bonus allocator *)

Lemma nlargest_ok (n : nat) (col : string) (df : DataFrame LoyaltyRow) :
  has_column df col = true ->
  nlargest n col df
  = Ok {| columns := columns df;
          rows := firstn n (stable_sort_desc (not_below [col]) (rows df)) |}.
Proof. intros H. unfold nlargest. now rewrite sort_values_one. Qed.

Lemma bonus_column_length (m : AllocationMethod) (pool : Q)
    (l : list RankedRow) :
  List.length (bonus_column m pool l) = List.length l.
Proof.
  destruct m; simpl; unfold loc_assign;
    repeat (rewrite ?length_map, ?length_combine, ?length_seq, ?Nat.min_id);
    reflexivity.
Qed.

Lemma bonus_amount_combine (l : list RankedRow) (col : list float64) :
  List.length col = List.length l ->
  map bonus_amount
      (map (fun p => {| ranked := fst p; bonus_amount := snd p |})
           (combine l col))
  = col.
Proof.
  revert col. induction l as [|x l IH]; intros [|c col] H;
    try discriminate; simpl; [reflexivity|].
  injection H as H. now rewrite IH.
Qed.

(** The allocation never fails on a frame that has the points column, and
    its [bonus_amount] column is [bonus_column] over the ranked top 50. *)
Lemma bonus_allocation_ok (df : DataFrame LoyaltyRow) (pool : Q)
    (m : AllocationMethod) :
  has_column df "total_loyalty_points" = true ->
  exists out,
    bonus_allocation_page df pool m = Ok out
    /\ map ranked (rows out)
       = assign_rank
           (firstn 50 (stable_sort_desc (not_below ["total_loyalty_points"])
                                        (rows df)))
    /\ map bonus_amount (rows out)
       = bonus_column m pool
           (assign_rank
              (firstn 50 (stable_sort_desc (not_below ["total_loyalty_points"])
                                           (rows df)))).
Proof.
  intros H. unfold bonus_allocation_page. rewrite nlargest_ok by assumption.
  cbn [bind rows columns]. eexists. split; [reflexivity|]. cbn [rows].
  set (top := assign_rank _). split.
  - rewrite map_map. cbn [ranked].
    rewrite <- (map_map fst (fun x => x)), map_id.
    generalize (bonus_column_length m pool top).
    generalize (bonus_column m pool top). clear.
    induction top as [|x top IH]; intros [|c col] Hc; try discriminate;
      simpl; [reflexivity|].
    injection Hc as Hc. now rewrite IH.
  - apply bonus_amount_combine, bonus_column_length.
Qed.

Lemma top_length (df : DataFrame LoyaltyRow) :
  List.length
    (assign_rank
       (firstn 50 (stable_sort_desc (not_below ["total_loyalty_points"])
                                    (rows df))))
  = Nat.min 50 (List.length (rows df)).
Proof.
  now rewrite assign_rank_length, length_firstn, stable_sort_desc_length.
Qed.

Lemma map_constant (A B : Type) (c : B) (l : list A) :
  map (fun _ => c) l = repeat c (List.length l).
Proof. induction l; simpl; congruence. Qed.

Lemma equal_column (pool : Q) (l : list RankedRow) :
  bonus_column Equal pool l = repeat (Finite (pool / 50)) (List.length l).
Proof. apply map_constant. Qed.

Lemma tiered_column_50 (pool : Q) (l : list RankedRow) :
  List.length l = 50%nat ->
  bonus_column Tiered pool l
  = map Finite (repeat (pool * 0.5 / 10) 10
                ++ repeat (pool * 0.35 / 20) 20
                ++ repeat (pool * 0.15 / 20) 20).
Proof.
  intros H. unfold bonus_column. rewrite map_constant, H. reflexivity.
Qed.

Lemma fsum_map_Finite (l : list Q) : fsum (map Finite l) = Finite (sum l).
Proof.
  rewrite <- (map_id l) at 2. apply (fsum_finite (fun x => x)).
Qed.

Lemma proportional_column (pool : Q) (l : list RankedRow) :
  ~ sum (map loyalty_points_of l) == 0 ->
  bonus_column Proportional pool l
  = map (fun r => Finite (loyalty_points_of r
                          / sum (map loyalty_points_of l) * pool)) l.
Proof.
  intros H. unfold bonus_column. apply map_ext. intros r.
  unfold fdiv, fmul.
  destruct (Qeq_bool (sum (map loyalty_points_of l)) 0) eqn:E; [|reflexivity].
  apply Qeq_bool_iff in E. contradiction.
Qed.

Lemma exact_within_tolerance (q pool : Q) :
  q == pool -> within_tolerance (Finite q) pool.
Proof.
  intros H. simpl.
  assert (E : Qabs (q - pool) == 0).
  { rewrite (Qabs_wd (q - pool) 0); [reflexivity | lra]. }
  rewrite E. apply Qmult_le_0_compat; [discriminate | apply Qabs_nonneg].
Qed.

Lemma top_50_points_ok (df : DataFrame LoyaltyRow) :
  has_column df "total_loyalty_points" = true ->
  top_50_points df
  = map loyalty_points_of
        (assign_rank
           (firstn 50 (stable_sort_desc (not_below ["total_loyalty_points"])
                                        (rows df)))).
Proof.
  intros H. unfold top_50_points. rewrite nlargest_ok by assumption.
  cbn [rows]. unfold loyalty_points_of.
  rewrite <- (map_map entry points_of). now rewrite assign_rank_entries.
Qed.

(** With one scored player and a pool of 50000 the Equal method allocates
    1000 in all: the sum of the allocation is not the pool. *)
Lemma equal_allocation_of_one_player_misses_pool :
  exists out,
    rows (session_results [P001_first]) <> []
    /\ bonus_allocation_page (session_results [P001_first]) 50000 Equal
       = Ok out
    /\ float_eq (total_allocated out) (Finite 1000)
    /\ ~ within_tolerance (total_allocated out) 50000.
Proof.
  eexists. split; [discriminate|]. split; [reflexivity|].
  split; [reflexivity|]. vm_compute. intros H. now apply H.
Qed.

(** C1, amended.  The sum of [bonus_amount] equals the pool (exactly in
    rational arithmetic, hence within the 1e-6 relative tolerance) under the
    Proportional method whenever the points of the allocated players do not
    sum to zero, and under the Equal and Tiered methods whenever at least 50
    players were scored, so that the allocation has the 50 members that the
    fixed shares [pool / 50], [pool * 0.5 / 10], [pool * 0.35 / 20] and
    [pool * 0.15 / 20] are made for. *)
Theorem allocation_sums_to_pool (results_df : DataFrame LoyaltyRow)
    (bonus_pool : Q) (allocation_method : AllocationMethod) :
  has_column results_df "total_loyalty_points" = true ->
  match allocation_method with
  | Proportional => ~ sum (top_50_points results_df) == 0
  | Equal | Tiered => (50 <= List.length (rows results_df))%nat
  end ->
  exists out q,
    bonus_allocation_page results_df bonus_pool allocation_method = Ok out
    /\ total_allocated out = Finite q
    /\ q == bonus_pool
    /\ within_tolerance (total_allocated out) bonus_pool.
Proof.
  intros Hcol Hm.
  destruct (bonus_allocation_ok results_df bonus_pool allocation_method Hcol)
    as [out [Hout [_ Hbonus]]].
  assert (Hlen := top_length results_df).
  assert (Hgoal : exists q, total_allocated out = Finite q /\ q == bonus_pool).
  { unfold total_allocated. rewrite Hbonus.
    destruct allocation_method.
    - rewrite top_50_points_ok in Hm by exact Hcol.
      rewrite proportional_column by exact Hm. rewrite fsum_finite.
      eexists. split; [reflexivity|].
      rewrite sum_scaled. field. exact Hm.
    - rewrite Nat.min_l in Hlen by exact Hm.
      rewrite equal_column, Hlen.
      change (repeat (Finite (bonus_pool / 50)) 50)
        with (map Finite (repeat (bonus_pool / 50) 50)).
      rewrite fsum_map_Finite. eexists. split; [reflexivity|].
      cbn [repeat sum fold_right]. field.
    - rewrite Nat.min_l in Hlen by exact Hm.
      rewrite tiered_column_50 by exact Hlen. rewrite fsum_map_Finite.
      eexists. split; [reflexivity|].
      cbn [repeat app sum fold_right]. field. }
  destruct Hgoal as [q [Hq Hqp]].
  exists out, q. repeat split; trivial.
  rewrite Hq. now apply exact_within_tolerance.
Qed.

(** Fifty scored players and a pool of 50000, under each method. *)
Lemma allocation_sums_to_pool_for_50_players :
  (exists out q,
      bonus_allocation_page (session_results (crowd 50)) 50000 Proportional
      = Ok out
      /\ total_allocated out = Finite q
      /\ q == 50000
      /\ within_tolerance (total_allocated out) 50000)
  /\ (exists out q,
         bonus_allocation_page (session_results (crowd 50)) 50000 Equal
         = Ok out
         /\ total_allocated out = Finite q
         /\ q == 50000
         /\ within_tolerance (total_allocated out) 50000)
  /\ (exists out q,
         bonus_allocation_page (session_results (crowd 50)) 50000 Tiered
         = Ok out
         /\ total_allocated out = Finite q
         /\ q == 50000
         /\ within_tolerance (total_allocated out) 50000).
Proof.
  repeat split.
  - apply (@allocation_sums_to_pool (session_results (crowd 50)) 50000
                                    Proportional).
    + vm_compute. reflexivity.
    + vm_compute. discriminate.
  - apply (@allocation_sums_to_pool (session_results (crowd 50)) 50000 Equal).
    + vm_compute. reflexivity.
    + vm_compute. apply le_n.
  - apply (@allocation_sums_to_pool (session_results (crowd 50)) 50000 Tiered).
    + vm_compute. reflexivity.
    + vm_compute. apply le_n.
Defined.

Lemma bonus_rows_length (df : DataFrame LoyaltyRow) (pool : Q)
    (m : AllocationMethod) (out : DataFrame BonusRow) :
  has_column df "total_loyalty_points" = true ->
  bonus_allocation_page df pool m = Ok out ->
  List.length (rows out) = Nat.min 50 (List.length (rows df)).
Proof.
  intros Hcol Hout.
  destruct (bonus_allocation_ok df pool m Hcol) as [out' [Hout' [Hr _]]].
  rewrite Hout in Hout'. injection Hout' as <-.
  now rewrite <- (length_map ranked), Hr, top_length.
Qed.

(** With one scored player and a pool of 50000 the Equal method pays 1000,
    which is [pool / 50] and not [pool / N] for N = 1. *)
Lemma equal_allocation_of_one_player_is_not_pool_over_n :
  exists out r,
    bonus_allocation_page (session_results [P001_first]) 50000 Equal = Ok out
    /\ rows out = [r]
    /\ float_eq (bonus_amount r) (Finite 1000)
    /\ ~ float_eq (bonus_amount r)
         (Finite (50000 / inject_Z (Z.of_nat (List.length (rows out))))).
Proof.
  eexists. eexists. split; [reflexivity|]. split; [reflexivity|].
  split; [reflexivity|]. vm_compute. discriminate.
Qed.

(** C4, amended.  Under the Equal method every member of the allocation
    receives [pool / 50], whatever its score and whatever the number N of
    members (at most 50).  This is [pool / N] when at least 50 players were
    scored, so that N = 50; with a pool of 50000 every amount is 1000. *)
Theorem equal_allocation_is_pool_over_50 (results_df : DataFrame LoyaltyRow)
    (bonus_pool : Q) :
  has_column results_df "total_loyalty_points" = true ->
  exists out,
    bonus_allocation_page results_df bonus_pool Equal = Ok out
    /\ List.length (rows out) = Nat.min 50 (List.length (rows results_df))
    /\ Forall (fun r => bonus_amount r = Finite (bonus_pool / 50)) (rows out)
    /\ ((50 <= List.length (rows results_df))%nat ->
        Forall (fun r =>
                  float_eq (bonus_amount r)
                    (Finite (bonus_pool
                             / inject_Z (Z.of_nat (List.length (rows out))))))
               (rows out))
    /\ (bonus_pool == 50000 ->
        Forall (fun r => float_eq (bonus_amount r) (Finite 1000)) (rows out)).
Proof.
  intros Hcol.
  destruct (bonus_allocation_ok results_df bonus_pool Equal Hcol)
    as [out [Hout [_ Hbonus]]].
  assert (Hlen := bonus_rows_length _ _ _ Hcol Hout).
  assert (Hall : Forall (fun r => bonus_amount r = Finite (bonus_pool / 50))
                        (rows out)).
  { apply Forall_map with (f := bonus_amount)
                          (P := fun x => x = Finite (bonus_pool / 50)).
    rewrite Hbonus, equal_column. apply Forall_forall.
    intros x Hx. now apply repeat_spec in Hx. }
  exists out. repeat split; trivial.
  - intros H50. rewrite Hlen, Nat.min_l by exact H50.
    revert Hall. apply Forall_impl. intros r ->. simpl. reflexivity.
  - intros Hpool. revert Hall. apply Forall_impl. intros r ->. simpl.
    rewrite Hpool. reflexivity.
Qed.

Lemma equal_allocation_is_pool_over_50_for_50_players :
  exists out,
    bonus_allocation_page (session_results (crowd 50)) 50000 Equal = Ok out
    /\ List.length (rows out)
       = Nat.min 50 (List.length (rows (session_results (crowd 50))))
    /\ Forall (fun r => bonus_amount r = Finite (50000 / 50)) (rows out)
    /\ ((50 <= List.length (rows (session_results (crowd 50))))%nat ->
        Forall (fun r =>
                  float_eq (bonus_amount r)
                    (Finite (50000
                             / inject_Z (Z.of_nat (List.length (rows out))))))
               (rows out))
    /\ (50000 == 50000 ->
        Forall (fun r => float_eq (bonus_amount r) (Finite 1000)) (rows out)).
Proof.
  apply (@equal_allocation_is_pool_over_50 (session_results (crowd 50)) 50000).
  vm_compute. reflexivity.
Defined.

Lemma sum_of_zeros (col : list Q) :
  Forall (fun x => x == 0) col -> sum col == 0.
Proof.
  induction 1 as [|x col Hx _ IH]; simpl; [reflexivity|].
  rewrite Hx, IH. reflexivity.
Qed.

Lemma fsum_of_nan (col : list float64) :
  Forall (fun x => x = NaN) col -> fsum col = Finite 0.
Proof.
  unfold fsum. induction 1 as [|x col Hx _ IH]; simpl; [reflexivity|].
  subst x. simpl. exact IH.
Qed.

Lemma top_rows_from_frame (df : DataFrame LoyaltyRow) (P : LoyaltyRow -> Prop) :
  Forall P (rows df) ->
  Forall (fun r => P (entry r))
         (assign_rank
            (firstn 50 (stable_sort_desc (not_below ["total_loyalty_points"])
                                         (rows df)))).
Proof.
  intros H. apply Forall_map with (f := entry) (P := P).
  rewrite assign_rank_entries. apply Forall_forall. intros r Hr.
  assert (Hin : In r (stable_sort_desc (not_below ["total_loyalty_points"])
                                       (rows df))).
  { rewrite <- (firstn_skipn 50). apply in_or_app. now left. }
  apply (Permutation_in _ (stable_sort_desc_perm _ _)) in Hin.
  exact (proj1 (Forall_forall P (rows df)) H r Hin).
Qed.

(** C3.  When every scored player has zero [total_loyalty_points], the
    Proportional method does not raise and does not fall back to equal
    shares: each [bonus_amount] is [0 / 0 * pool], that is NaN, and the
    total allocated, which skips NaN, is 0. *)
Theorem proportional_allocation_of_zero_points
    (results_df : DataFrame LoyaltyRow) (bonus_pool : Q) :
  has_column results_df "total_loyalty_points" = true ->
  rows results_df <> [] ->
  Forall (fun r => points_of r == 0) (rows results_df) ->
  exists out,
    bonus_allocation_page results_df bonus_pool Proportional = Ok out
    /\ rows out <> []
    /\ Forall (fun r => bonus_amount r = NaN) (rows out)
    /\ total_allocated out = Finite 0.
Proof.
  intros Hcol Hne Hzero.
  destruct (bonus_allocation_ok results_df bonus_pool Proportional Hcol)
    as [out [Hout [_ Hbonus]]].
  assert (Hlen := bonus_rows_length _ _ _ Hcol Hout).
  assert (Htop := top_rows_from_frame _ Hzero).
  revert Hbonus Htop. set (top := assign_rank _). intros Hbonus Htop.
  assert (Hsum : sum (map loyalty_points_of top) == 0).
  { apply sum_of_zeros, Forall_map. exact Htop. }
  assert (Hnan : Forall (fun x => x = NaN) (map bonus_amount (rows out))).
  { rewrite Hbonus. unfold bonus_column. apply Forall_map.
    revert Htop. apply Forall_impl. intros r Hr.
    unfold fdiv, fmul. apply Qeq_bool_iff in Hsum, Hr.
    unfold loyalty_points_of, points_of in *. now rewrite Hsum, Hr. }
  exists out. repeat split; trivial.
  - intros E. rewrite E in Hlen. simpl in Hlen.
    destruct (rows results_df); [congruence | discriminate].
  - now apply Forall_map in Hnan.
  - unfold total_allocated. now apply fsum_of_nan.
Qed.

(** One player without any activity, pool 50000: the single bonus is NaN,
    where equal shares would give 50000. *)
Lemma proportional_allocation_of_idle_player :
  exists out,
    bonus_allocation_page (session_results [idle_player]) 50000 Proportional
    = Ok out
    /\ rows out <> []
    /\ Forall (fun r => bonus_amount r = NaN) (rows out)
    /\ total_allocated out = Finite 0.
Proof.
  apply (@proportional_allocation_of_zero_points
           (session_results [idle_player]) 50000).
  - vm_compute. reflexivity.
  - discriminate.
  - repeat constructor.
Defined.

(* ================================================================= *)
(** * The validator *)

(** An empty upload that also lacks the required columns gets two errors,
    and the text of the emptiness error starts with a capital letter. *)
Lemma validate_empty_frame_without_columns :
  validate_data (fun _ => true) (fun _ => None) (fun _ => "?") (mkRaw [] [])
  = {| is_valid := false;
       errors :=
         [ "Missing required columns: player_id, date, time_slot, deposits, withdrawals, games_played";
           "Dataset is empty" ] |}
  /\ errors (validate_data (fun _ => true) (fun _ => None) (fun _ => "?")
                           (mkRaw required_columns []))
     <> ["dataset is empty"].
Proof. split; [reflexivity | discriminate]. Qed.

(** C6, amended.  For an empty table [validate_data] returns
    [is_valid = False] and stops after the emptiness check: the errors are
    "Dataset is empty", preceded by the missing-columns error when a required
    column is absent, so exactly one error when all required columns are
    there.  The result does not depend on how dates, numbers or cells are
    read: no per-record check takes part. *)
Theorem validate_empty_dataset (to_datetime_ok : list RawCell -> bool)
    (parse_number : string -> option Q) (repr : RawCell -> string)
    (data : RawFrame) :
  raw_rows data = [] ->
  validate_data to_datetime_ok parse_number repr data
  = {| is_valid := false;
       errors :=
         match filter (fun col => negb (raw_has_column data col))
                      required_columns with
         | [] => ["Dataset is empty"]
         | missing_columns =>
             [ "Missing required columns: "
                 ++ String.concat ", " missing_columns;
               "Dataset is empty" ]
         end |}.
Proof.
  intros H. unfold validate_data. rewrite H. cbn [List.length Nat.eqb].
  destruct (filter _ required_columns); reflexivity.
Qed.

Lemma validate_empty_dataset_with_columns :
  validate_data (fun _ => false) (fun _ => None) (fun _ => "?")
                (mkRaw required_columns [])
  = {| is_valid := false; errors := ["Dataset is empty"] |}.
Proof.
  apply (@validate_empty_dataset (fun _ => false) (fun _ => None)
                                 (fun _ => "?") (mkRaw required_columns [])).
  reflexivity.
Defined.

(* ================================================================= *)
(** * Slot keys *)

Lemma split_nonempty (sep : ascii) (s : string) : split sep s <> [].
Proof.
  destruct s as [|c s]; simpl; [discriminate|].
  destruct (Ascii.eqb c sep); [discriminate|].
  destruct (split sep s); discriminate.
Qed.

Lemma split_app (sep : ascii) (a b : string) :
  split sep (a ++ String sep b) = (split sep a ++ split sep b)%list.
Proof.
  induction a as [|c a IH]; simpl.
  - now rewrite Ascii.eqb_refl.
  - destruct (Ascii.eqb c sep); rewrite IH; [reflexivity|].
    destruct (split sep a) eqn:E; [now elim (split_nonempty sep a)|].
    reflexivity.
Qed.

Lemma split_without_separator (sep : ascii) (s : string) :
  occurs sep s = false -> split sep s = [s].
Proof.
  induction s as [|c s IH]; simpl; [reflexivity|].
  intros H. apply orb_false_iff in H. destruct H as [Hc Hs].
  rewrite Hc, IH by exact Hs. reflexivity.
Qed.

Lemma split_with_separator (sep : ascii) (s : string) :
  occurs sep s = true -> (2 <= List.length (split sep s))%nat.
Proof.
  induction s as [|c s IH]; simpl; [discriminate|].
  destruct (Ascii.eqb c sep); simpl.
  - intros _. assert (H := split_nonempty sep s).
    destruct (split sep s); [congruence | simpl; lia].
  - intros H. apply IH in H. destruct (split sep s); simpl in *; lia.
Qed.

Lemma split_pieces (sep : ascii) (s : string) :
  Forall (fun piece => occurs sep piece = false) (split sep s).
Proof.
  induction s as [|c s IH]; simpl; [repeat constructor|].
  destruct (Ascii.eqb c sep) eqn:E; [now constructor|].
  destruct (split sep s) as [|p ps]; [repeat constructor; simpl; now rewrite E|].
  inversion IH as [|? ? Hp Hps]; subst.
  constructor; [simpl; now rewrite E, Hp | exact Hps].
Qed.

Lemma concat_cons (sep s : string) (l : list string) :
  l <> [] -> String.concat sep (s :: l) = s ++ sep ++ String.concat sep l.
Proof. destruct l; [congruence | reflexivity]. Qed.

Lemma concat_split (sep : ascii) (s : string) :
  String.concat (String sep EmptyString) (split sep s) = s.
Proof.
  induction s as [|c s IH]; simpl; [reflexivity|].
  destruct (Ascii.eqb c sep) eqn:E.
  - apply Ascii.eqb_eq in E. subst c.
    rewrite concat_cons by apply split_nonempty. simpl. now rewrite IH.
  - destruct (split sep s) as [|p ps] eqn:Es;
      [now elim (split_nonempty sep s)|].
    destruct ps as [|q ps]; simpl in *; now rewrite <- IH.
Qed.

Lemma append_assoc (a b c : string) : (a ++ b) ++ c = a ++ (b ++ c).
Proof. induction a as [|x a IH]; simpl; [reflexivity | now rewrite IH]. Qed.

Lemma concat_snoc (sep s : string) (l : list string) :
  l <> [] ->
  String.concat sep (l ++ [s]) = String.concat sep l ++ sep ++ s.
Proof.
  induction l as [|x l IH]; [congruence|]. intros _.
  destruct l as [|y l]; [reflexivity|].
  change ((x :: y :: l) ++ [s])%list with (x :: ((y :: l) ++ [s]))%list.
  rewrite concat_cons by (simpl; discriminate).
  rewrite IH by discriminate.
  rewrite (concat_cons sep x (l := y :: l)) by discriminate.
  now rewrite !append_assoc.
Qed.

Lemma parse_date_slot_key_round (date_ slot : string) :
  occurs "_" slot = false ->
  parse_date_slot_key (date_ ++ "_" ++ slot) = Some (date_, slot).
Proof.
  intros Hs. unfold parse_date_slot_key.
  change ("_" ++ slot) with (String "_" slot).
  rewrite split_app, (split_without_separator _ _ Hs).
  assert (Hlen : (2 <=? List.length (split "_" date_ ++ [slot]))%nat = true).
  { apply Nat.leb_le. rewrite length_app. simpl.
    assert (Hne := split_nonempty "_" date_).
    destruct (split "_" date_); [congruence | simpl; lia]. }
  rewrite Hlen, removelast_last, last_last, concat_split. reflexivity.
Qed.

(** X1.  [parse_date_slot_key] returns the pair [(date, slot)] exactly for
    the keys that [create_date_slot_key] makes from [date] and a [slot]
    without underscore (the date may contain underscores), and it returns
    [(None, None)] exactly for the keys that contain no underscore. *)
Theorem parse_date_slot_key_inverts_create (key date_ slot : string) :
  (parse_date_slot_key key = Some (date_, slot)
   <-> key = create_date_slot_key date_ slot /\ occurs "_" slot = false)
  /\ (parse_date_slot_key key = None <-> occurs "_" key = false).
Proof.
  unfold parse_date_slot_key, create_date_slot_key. split; split.
  - destruct (2 <=? List.length (split "_" key))%nat eqn:E; [|discriminate].
    intros H. injection H as Hd Hs.
    assert (Hne : split "_" key <> []) by apply split_nonempty.
    assert (Hparts := app_removelast_last EmptyString Hne).
    assert (Hrm : removelast (split "_" key) <> []).
    { intros Hnil. rewrite Hnil in Hparts. rewrite Hparts in E.
      discriminate. }
    split.
    + rewrite <- (concat_split "_" key) at 1.
      rewrite Hparts, concat_snoc by exact Hrm. now rewrite Hd, Hs.
    + assert (Hall := split_pieces "_" key). rewrite Hparts in Hall.
      apply Forall_app in Hall. destruct Hall as [_ Hlast].
      inversion Hlast; subst. assumption.
  - intros [-> Hs]. now apply parse_date_slot_key_round.
  - destruct (2 <=? List.length (split "_" key))%nat eqn:E; [discriminate|].
    intros _. destruct (occurs "_" key) eqn:Ho; [|reflexivity].
    apply split_with_separator in Ho. apply Nat.leb_gt in E. lia.
  - intros H. now rewrite (split_without_separator _ _ H).
Qed.

Lemma parse_date_slot_key_inverts_create_sample :
  parse_date_slot_key (create_date_slot_key "2023-10-02" "S1")
  = Some ("2023-10-02", "S1").
Proof.
  apply (proj2 (proj1 (parse_date_slot_key_inverts_create
                         (create_date_slot_key "2023-10-02" "S1")
                         "2023-10-02" "S1"))).
  split; reflexivity.
Defined.

Lemma slot_key_injective (c1 c2 : SlotConfig) :
  occurs "_" (config_slot c1) = false ->
  occurs "_" (config_slot c2) = false ->
  slot_key c1 = slot_key c2 -> c1 = c2.
Proof.
  intros H1 H2 E.
  assert (P1 : parse_date_slot_key (slot_key c1)
               = Some (config_date c1, config_slot c1)).
  { apply parse_date_slot_key_round. exact H1. }
  assert (P2 : parse_date_slot_key (slot_key c2)
               = Some (config_date c2, config_slot c2)).
  { apply parse_date_slot_key_round. exact H2. }
  rewrite E, P2 in P1. destruct c1, c2. simpl in *. congruence.
Qed.

(* ================================================================= *)
(** * Slot batches *)

Lemma dict_get_set_same (V : Type) (d : dict V) (k : string) (v : V) :
  dict_get (dict_set d k v) k = Some v.
Proof.
  induction d as [|[k' v'] d IH]; simpl.
  - now rewrite String.eqb_refl.
  - destruct (k' =? k) eqn:E; simpl; now rewrite E.
Qed.

Lemma dict_get_set_other (V : Type) (d : dict V) (k k' : string) (v : V) :
  k <> k' -> dict_get (dict_set d k v) k' = dict_get d k'.
Proof.
  intros Hk. induction d as [|[k0 v0] d IH]; simpl.
  - apply String.eqb_neq in Hk. now rewrite Hk.
  - destruct (k0 =? k) eqn:E; simpl.
    + apply String.eqb_eq in E. subst k0.
      apply String.eqb_neq in Hk. now rewrite Hk.
    + destruct (k0 =? k'); [reflexivity | exact IH].
Qed.

Lemma dict_set_keys (V : Type) (d : dict V) (k : string) (v : V) :
  NoDup (map fst d) -> NoDup (map fst (dict_set d k v))
  /\ forall k', In k' (map fst (dict_set d k v)) <-> k' = k \/ In k' (map fst d).
Proof.
  induction d as [|[k0 v0] d IH]; simpl; intros Hd.
  - split; [repeat constructor; auto | intros k'; intuition].
  - inversion Hd as [|? ? Hnot Hrest]; subst.
    destruct (k0 =? k) eqn:E; simpl.
    + apply String.eqb_eq in E. subst k0. split; [exact Hd|].
      intros k'. intuition.
    + destruct (IH Hrest) as [Hnd Hin].
      apply String.eqb_neq in E. split.
      * constructor; [|exact Hnd]. rewrite Hin. intuition.
      * intros k'. rewrite Hin. intuition.
Qed.

(** X2.  When no requested slot name contains an underscore, the batch
    calculation holds, under the key of every requested configuration, the
    result of the slot calculation for that date and slot alone; a
    configuration requested twice gives one entry. *)
Theorem specific_slots_are_independent (data : list ActivityRecord)
    (slot_configs : list SlotConfig) :
  Forall (fun c => occurs "_" (config_slot c) = false) slot_configs ->
  let results := calculate_specific_slots_loyalty_points data slot_configs in
  NoDup (map fst results)
  /\ (forall k, In k (map fst results) <-> In k (map slot_key slot_configs))
  /\ forall config, In config slot_configs ->
       dict_get results (slot_key config)
       = Some (calculate_slot_loyalty_points data (config_date config)
                                             (config_slot config)).
Proof.
  unfold calculate_specific_slots_loyalty_points.
  induction slot_configs as [|c l IH] using rev_ind; intros Hall.
  - simpl. split; [constructor | split; [reflexivity | contradiction]].
  - apply Forall_app in Hall. destruct Hall as [Hl Hc].
    inversion Hc as [|? ? Hc' _]; subst.
    specialize (IH Hl). cbv zeta in IH. destruct IH as [Hnd [Hkeys Hget]].
    rewrite fold_left_app. cbn [fold_left].
    destruct (dict_set_keys _ (slot_key c)
                (calculate_slot_loyalty_points data (config_date c)
                                               (config_slot c)) Hnd)
      as [Hnd' Hin'].
    split; [exact Hnd' | split].
    + intros k. rewrite Hin', Hkeys, map_app, in_app_iff. simpl. intuition.
    + intros config Hin. apply in_app_or in Hin.
      destruct (string_dec (slot_key c) (slot_key config)) as [E|E].
      * assert (Hcfg : occurs "_" (config_slot config) = false).
        { destruct Hin as [Hin|[<-|[]]]; [|exact Hc'].
          exact (proj1 (Forall_forall _ l) Hl config Hin). }
        apply (slot_key_injective _ _ Hc' Hcfg) in E. subst config.
        apply dict_get_set_same.
      * rewrite dict_get_set_other by exact E.
        destruct Hin as [Hin|[<-|[]]]; [now apply Hget | congruence].
Qed.

Lemma specific_slots_are_independent_sample :
  let slot_configs :=
    [ mkConfig "2023-10-02" "S1"; mkConfig "2023-10-16" "S2";
      mkConfig "2023-10-02" "S1" ] in
  let results := calculate_specific_slots_loyalty_points two_months
                                                         slot_configs in
  NoDup (map fst results)
  /\ (forall k, In k (map fst results) <-> In k (map slot_key slot_configs))
  /\ forall config, In config slot_configs ->
       dict_get results (slot_key config)
       = Some (calculate_slot_loyalty_points two_months (config_date config)
                                             (config_slot config)).
Proof.
  apply (@specific_slots_are_independent two_months).
  repeat constructor.
Defined.

(* ================================================================= *)
(** * Growth rate and percentile rank *)

Lemma quotient_sign (x y : Q) : 0 < y -> 0 <= x -> 0 <= x / y * 100.
Proof.
  intros Hy Hx.
  assert (H : 0 <= x / y) by (apply Qle_shift_div_l; [exact Hy | lra]).
  revert H. generalize (x / y). intros q H. lra.
Qed.

Lemma quotient_flip (x y : Q) : ~ y == 0 -> x / y * 100 == - ((- x) / y * 100).
Proof.
  intros Hy. field. exact Hy.
Qed.

Lemma quotient_negate (x y : Q) : ~ y == 0 -> x / y * 100 == (- x) / (- y) * 100.
Proof.
  intros Hy. field. exact Hy.
Qed.

(** X3.  The growth rate.  With a previous value of zero no division takes
    place: the rate is 0 when the current value is zero too and 100
    otherwise, also for a negative current value.  With a previous value
    other than zero the rate is 0 when nothing changed and -100 when the
    current value is zero, and its sign tells the direction of the change:
    above a positive previous value the rate is not negative and below it
    not positive, and the other way round for a negative previous value. *)
Theorem growth_rate_characterised (current_value previous_value : Q) :
  let g := calculate_growth_rate current_value previous_value in
  if Qeq_bool previous_value 0
  then (g = 0 \/ g = 100) /\ (g == 0 <-> current_value == 0)
  else (current_value == previous_value -> g == 0)
       /\ (current_value == 0 -> g == - (100))
       /\ (0 < previous_value ->
           (previous_value <= current_value -> 0 <= g)
           /\ (current_value <= previous_value -> g <= 0))
       /\ (previous_value < 0 ->
           (previous_value <= current_value -> g <= 0)
           /\ (current_value <= previous_value -> 0 <= g)).
Proof.
  unfold calculate_growth_rate.
  destruct (Qeq_bool previous_value 0) eqn:Ep; cbv zeta.
  - destruct (Qeq_bool current_value 0) eqn:Ec.
    + apply Qeq_bool_iff in Ec. split; [now left|]. split; trivial. reflexivity.
    + split; [now right|]. split.
      * intros H. discriminate H.
      * intros H. apply Qeq_bool_iff in H. congruence.
  - assert (Hp : ~ previous_value == 0).
    { intros H. apply Qeq_bool_iff in H. congruence. }
    split; [|split; [|split]].
    + intros ->. field. exact Hp.
    + intros ->. field. exact Hp.
    + intros Hpos. split; intros H.
      * apply quotient_sign; [exact Hpos | lra].
      * rewrite quotient_flip by exact Hp.
        assert (0 <= - (current_value - previous_value) / previous_value * 100)
          by (apply quotient_sign; [exact Hpos | lra]).
        lra.
    + intros Hneg. split; intros H.
      * rewrite quotient_negate, quotient_flip by lra.
        assert (0 <= - - (current_value - previous_value)
                     / - previous_value * 100)
          by (apply quotient_sign; lra).
        lra.
      * rewrite quotient_negate by exact Hp.
        apply quotient_sign; lra.
Qed.

Lemma filter_all_length (A : Type) (f : A -> bool) (l : list A) :
  List.length (filter f l) = List.length l <-> Forall (fun x => f x = true) l.
Proof.
  induction l as [|a l IH]; simpl; [split; [constructor | reflexivity]|].
  assert (Hle := filter_length_le f l).
  destruct (f a) eqn:E; simpl; split; intros H.
  - constructor; [exact E | apply IH; lia].
  - inversion H; subst. f_equal. now apply IH.
  - lia.
  - inversion H; subst. congruence.
Qed.

Lemma filter_none_length (A : Type) (f : A -> bool) (l : list A) :
  List.length (filter f l) = 0%nat <-> Forall (fun x => f x = false) l.
Proof.
  induction l as [|a l IH]; simpl; [split; [constructor | reflexivity]|].
  destruct (f a) eqn:E; simpl; split; intros H.
  - discriminate.
  - inversion H; subst. congruence.
  - constructor; [exact E | now apply IH].
  - inversion H; subst. now apply IH.
Qed.

Lemma below_iff (value x : Q) : negb (Qle_bool value x) = true <-> x < value.
Proof.
  rewrite negb_true_iff. destruct (Qle_bool value x) eqn:E.
  - apply Qle_bool_iff in E. split; [discriminate | lra].
  - split; [intros _ | reflexivity]. apply Qnot_le_lt. intros H.
    apply Qle_bool_iff in H. congruence.
Qed.

Lemma share_of_hundred (c n : nat) :
  (0 < n)%nat -> (c <= n)%nat ->
  let p := inject_Z (Z.of_nat c) / inject_Z (Z.of_nat n) * 100 in
  0 <= p <= 100 /\ (p == 0 <-> c = 0%nat) /\ (p == 100 <-> c = n).
Proof.
  intros Hn Hc.
  assert (HN : 0 < inject_Z (Z.of_nat n)).
  { change 0 with (inject_Z 0). rewrite <- Zlt_Qlt. lia. }
  assert (HC : 0 <= inject_Z (Z.of_nat c)).
  { change 0 with (inject_Z 0). rewrite <- Zle_Qle. lia. }
  assert (HCN : inject_Z (Z.of_nat c) <= inject_Z (Z.of_nat n)).
  { rewrite <- Zle_Qle. lia. }
  assert (Hmul : inject_Z (Z.of_nat c) / inject_Z (Z.of_nat n)
                 * inject_Z (Z.of_nat n) == inject_Z (Z.of_nat c)).
  { field. lra. }
  assert (Hlo : 0 <= inject_Z (Z.of_nat c) / inject_Z (Z.of_nat n)).
  { apply Qle_shift_div_l; [exact HN | lra]. }
  assert (Hhi : inject_Z (Z.of_nat c) / inject_Z (Z.of_nat n) <= 1).
  { apply Qle_shift_div_r; [exact HN | lra]. }
  cbv zeta. revert Hmul Hlo Hhi.
  generalize (inject_Z (Z.of_nat c) / inject_Z (Z.of_nat n)).
  intros q Hmul Hlo Hhi.
  split; [lra | split; split].
  - intros Hp. assert (Hq : q == 0) by lra. rewrite Hq in Hmul.
    assert (E : inject_Z (Z.of_nat c) == inject_Z 0)
      by (rewrite <- Hmul; change (inject_Z 0) with 0; ring).
    apply (proj1 (inject_Z_injective _ _)) in E. lia.
  - intros ->. simpl in Hmul.
    assert (Hq : q * inject_Z (Z.of_nat n) == 0) by exact Hmul.
    apply Qmult_integral in Hq. destruct Hq as [Hq|Hq]; lra.
  - intros Hp. assert (Hq : q == 1) by lra. rewrite Hq in Hmul.
    assert (E : inject_Z (Z.of_nat c) == inject_Z (Z.of_nat n))
      by (rewrite <- Hmul; ring).
    apply (proj1 (inject_Z_injective _ _)) in E. lia.
  - intros ->.
    assert (Hq : (q - 1) * inject_Z (Z.of_nat n) == 0).
    { setoid_replace ((q - 1) * inject_Z (Z.of_nat n))
        with (q * inject_Z (Z.of_nat n) - inject_Z (Z.of_nat n)) by ring.
      rewrite Hmul. ring. }
    apply Qmult_integral in Hq. destruct Hq as [Hq|Hq]; lra.
Qed.

(** X4.  For a non-empty series the percentile rank of a value is a number
    between 0 and 100: it is 0 exactly when no entry is below the value and
    100 exactly when every entry is strictly below it, so an entry that
    equals the value does not count. *)
Theorem percentile_rank_bounds (series : list Q) (value : Q) :
  series <> [] ->
  exists p,
    calculate_percentile_rank series value = Finite p
    /\ 0 <= p <= 100
    /\ (p == 0 <-> Forall (fun x => value <= x) series)
    /\ (p == 100 <-> Forall (fun x => x < value) series).
Proof.
  intros Hne. unfold calculate_percentile_rank.
  assert (Hn : (0 < List.length series)%nat)
    by (destruct series; [congruence | simpl; lia]).
  assert (Hc := filter_length_le (fun x => negb (Qle_bool value x)) series).
  assert (Hz : Qeq_bool (inject_Z (Z.of_nat (List.length series))) 0 = false).
  { destruct (Qeq_bool (inject_Z (Z.of_nat (List.length series))) 0) eqn:E;
      [|reflexivity].
    apply Qeq_bool_iff in E. change 0 with (inject_Z 0) in E.
    apply (proj1 (inject_Z_injective _ _)) in E. lia. }
  unfold fdiv, fmul. rewrite Hz. eexists. split; [reflexivity|].
  destruct (share_of_hundred Hn Hc) as [Hb [H0 H100]].
  split; [exact Hb | split].
  - rewrite H0, filter_none_length. split; apply Forall_impl; intros x Hx.
    + apply negb_false_iff in Hx. now apply Qle_bool_iff.
    + apply negb_false_iff. now apply Qle_bool_iff.
  - rewrite H100, filter_all_length. split; apply Forall_impl; intros x Hx;
      now apply below_iff.
Qed.

Lemma percentile_rank_bounds_sample :
  exists p,
    calculate_percentile_rank [10; 20; 20; 40] 20 = Finite p
    /\ 0 <= p <= 100
    /\ (p == 0 <-> Forall (fun x => 20 <= x) [10; 20; 20; 40])
    /\ (p == 100 <-> Forall (fun x => x < 20) [10; 20; 20; 40]).
Proof.
  apply (@percentile_rank_bounds [10; 20; 20; 40] 20). discriminate.
Defined.

(* ================================================================= *)
(** * Sheet names *)

Lemma prefix_of_length (n : nat) (s : string) :
  (String.length (prefix_of n s) <= n)%nat.
Proof.
  revert s. induction n as [|n IH]; intros [|c s]; simpl; try lia.
  specialize (IH s). lia.
Qed.

Lemma prefix_of_short (n : nat) (s : string) :
  (String.length s <= n)%nat -> prefix_of n s = s.
Proof.
  revert s. induction n as [|n IH]; intros [|c s]; simpl; intros H;
    try reflexivity; try lia.
  rewrite IH by lia. reflexivity.
Qed.

Lemma prefix_of_occurs (c : ascii) (n : nat) (s : string) :
  occurs c s = false -> occurs c (prefix_of n s) = false.
Proof.
  revert s. induction n as [|n IH]; intros [|x s]; simpl; trivial.
  intros H. apply orb_false_iff in H. destruct H as [Hx Hs].
  now rewrite Hx, IH.
Qed.

Lemma replace_removes (old new : ascii) (s : string) :
  old <> new -> occurs old (replace old new s) = false.
Proof.
  intros Hne. induction s as [|c s IH]; simpl; [reflexivity|].
  rewrite IH, orb_false_r. destruct (Ascii.eqb c old) eqn:E; [|exact E].
  apply Ascii.eqb_neq. congruence.
Qed.

Lemma replace_keeps_absent (c old new : ascii) (s : string) :
  c <> new -> occurs c s = false -> occurs c (replace old new s) = false.
Proof.
  intros Hne. induction s as [|x s IH]; simpl; [reflexivity|].
  intros H. apply orb_false_iff in H. destruct H as [Hx Hs].
  rewrite IH by exact Hs. rewrite orb_false_r.
  destruct (Ascii.eqb x old); [|exact Hx].
  apply Ascii.eqb_neq. congruence.
Qed.

Lemma replace_absent (old new : ascii) (s : string) :
  occurs old s = false -> replace old new s = s.
Proof.
  induction s as [|c s IH]; simpl; [reflexivity|].
  intros H. apply orb_false_iff in H. destruct H as [Hc Hs].
  now rewrite Hc, IH.
Qed.

Lemma clean_sheet_name_fixed (sheet_name : string) :
  (String.length sheet_name <= 31)%nat ->
  occurs "/" sheet_name = false ->
  occurs "\" sheet_name = false ->
  clean_sheet_name sheet_name = sheet_name.
Proof.
  intros Hlen Hs Hb. unfold clean_sheet_name.
  rewrite (replace_absent _ _ _ Hs), (replace_absent _ _ _ Hb).
  now apply prefix_of_short.
Qed.

(** X5.  The name under which a sheet is written has at most 31
    characters and contains neither a slash nor a backslash; cleaning a
    cleaned name changes nothing. *)
Theorem clean_sheet_name_is_clean (sheet_name : string) :
  (String.length (clean_sheet_name sheet_name) <= 31)%nat
  /\ occurs "/" (clean_sheet_name sheet_name) = false
  /\ occurs "\" (clean_sheet_name sheet_name) = false
  /\ clean_sheet_name (clean_sheet_name sheet_name)
     = clean_sheet_name sheet_name.
Proof.
  assert (Hlen : (String.length (clean_sheet_name sheet_name) <= 31)%nat)
    by apply prefix_of_length.
  assert (Hs : occurs "/" (clean_sheet_name sheet_name) = false).
  { apply prefix_of_occurs, replace_keeps_absent; [discriminate|].
    apply replace_removes. discriminate. }
  assert (Hb : occurs "\" (clean_sheet_name sheet_name) = false).
  { apply prefix_of_occurs, replace_removes. discriminate. }
  repeat split; trivial. now apply clean_sheet_name_fixed.
Qed.

(* ================================================================= *)
(** * What a passed validation guarantees *)

Lemma append_not_nil (errors : list string) (msg : string) :
  append errors msg <> [].
Proof. unfold append. destruct errors; discriminate. Qed.

Lemma checked_nil (c : bool) (errors : list string) (msg : string) :
  (if c then append errors msg else errors) = [] <-> errors = [] /\ c = false.
Proof.
  destruct c; split.
  - intros H. now elim (append_not_nil errors msg).
  - intros [_ H]. discriminate.
  - intros H. now split.
  - now intros [H _].
Qed.

Lemma filter_nil_iff (A : Type) (f : A -> bool) (l : list A) :
  filter f l = [] <-> Forall (fun x => f x = false) l.
Proof.
  rewrite <- filter_none_length. split; intros H.
  - now rewrite H.
  - destruct (filter f l); [reflexivity | discriminate].
Qed.

Lemma existsb_false_iff (A : Type) (f : A -> bool) (l : list A) :
  existsb f l = false <-> Forall (fun x => f x = false) l.
Proof.
  induction l as [|a l IH]; simpl; [split; [constructor | reflexivity]|].
  rewrite orb_false_iff, IH. split.
  - intros [Ha Hl]. now constructor.
  - intros H. inversion H; subst. now split.
Qed.

Lemma unique_cells_nil (l : list RawCell) : unique_cells l = [] <-> l = [].
Proof. destruct l; simpl; split; congruence. Qed.

Lemma isin_valid_slots (c : RawCell) :
  isin valid_slots c = true <-> c = RawStr "S1" \/ c = RawStr "S2".
Proof.
  destruct c as [|q|s]; simpl.
  - split; [discriminate | intros [H|H]; discriminate].
  - split; [discriminate | intros [H|H]; discriminate].
  - rewrite !orb_true_iff, !String.eqb_eq. split.
    + intros [H|[H|H]]; [left | right | discriminate]; congruence.
    + intros [H|H]; injection H as ->; auto.
Qed.

Section ValidatorFacts.

Variable to_datetime_ok : list RawCell -> bool.
Variable parse_number : string -> option Q.
Variable repr : RawCell -> string.

Lemma numeric_cells_ok (col : list RawCell) :
  existsb isnull_numeric (map (to_numeric parse_number) col) = false
  /\ existsb below_zero (map (to_numeric parse_number) col) = false
  <-> Forall (fun c => exists q, to_numeric parse_number c = Some q /\ 0 <= q) col.
Proof.
  rewrite !existsb_false_iff, !Forall_map.
  split.
  - intros [Hn Hz]. apply Forall_forall. intros c Hc.
    apply (proj1 (Forall_forall _ _)) with (x := c) in Hn; [|exact Hc].
    apply (proj1 (Forall_forall _ _)) with (x := c) in Hz; [|exact Hc].
    destruct (to_numeric parse_number c) as [q|]; [|discriminate].
    exists q. split; [reflexivity|]. simpl in Hz. unfold Qnegative in Hz.
    apply negb_false_iff in Hz. now apply Qle_bool_iff.
  - intros H. split; revert H; apply Forall_impl; intros c [q [-> Hq]];
      [reflexivity|].
    simpl. unfold Qnegative. apply negb_false_iff. now apply Qle_bool_iff.
Qed.

Lemma validate_numeric_nil (data : RawFrame) (errors : list string)
    (col : string) :
  validate_numeric parse_number data errors col = []
  <-> errors = []
      /\ (raw_has_column data col = true ->
          Forall (fun c => exists q, to_numeric parse_number c = Some q
                                     /\ 0 <= q)
                 (raw_column data col)).
Proof.
  unfold validate_numeric. destruct (raw_has_column data col).
  - rewrite checked_nil, checked_nil, <- numeric_cells_ok. intuition.
  - intuition. discriminate.
Qed.

Lemma validate_numeric_all_nil (data : RawFrame) (cols : list string)
    (errors : list string) :
  fold_left (validate_numeric parse_number data) cols errors = []
  <-> errors = []
      /\ Forall (fun col =>
                   raw_has_column data col = true ->
                   Forall (fun c => exists q,
                               to_numeric parse_number c = Some q /\ 0 <= q)
                          (raw_column data col))
                cols.
Proof.
  revert errors. induction cols as [|col cols IH]; intros errors; simpl.
  - intuition.
  - rewrite IH, validate_numeric_nil. split.
    + intros [[He Hc] Hrest]. split; [exact He | now constructor].
    + intros [He H]. inversion H; subst. intuition.
Qed.

Lemma slot_step_nil (h c : bool) (errors : list string) (msg : string) :
  (if h then if c then append errors msg else errors else errors) = []
  <-> errors = [] /\ (h = true -> c = false).
Proof.
  destruct h.
  - rewrite checked_nil. intuition.
  - intuition. discriminate.
Qed.

Lemma missing_step_nil (missing : list string) (msg : string) :
  match missing with [] => [] | _ => append [] msg end = []
  <-> missing = [].
Proof.
  destruct missing; split; trivial; discriminate.
Qed.

Lemma required_columns_present (data : RawFrame) :
  Forall (fun col => raw_has_column data col = true) required_columns ->
  raw_has_column data "player_id" = true
  /\ raw_has_column data "date" = true
  /\ raw_has_column data "time_slot" = true
  /\ Forall (fun col => raw_has_column data col = true) numeric_columns.
Proof.
  unfold required_columns, numeric_columns. intros H.
  repeat match goal with
         | H : Forall _ (_ :: _) |- _ => inversion H; subst; clear H
         end.
  repeat split; trivial. repeat constructor; trivial.
Qed.

(** X6.  For a table whose column labels are all different (a label that
    occurs twice makes [data[col]] a frame instead of a column, which the
    checks do not survive), [validate_data] accepts the table exactly when
    it has at least one row and all six required columns, no player id is
    null, the date column is accepted by [pd.to_datetime], every time slot
    is the string S1 or S2, and every cell of the three numeric columns
    reads as a number that is not negative.  An accepted table has no error
    message and a rejected one has at least one. *)
Theorem validate_data_accepts_iff (data : RawFrame) :
  NoDup (raw_columns data) ->
  let outcome := validate_data to_datetime_ok parse_number repr data in
  (is_valid outcome = true <-> errors outcome = [])
  /\ (is_valid outcome = true
      <-> raw_rows data <> []
          /\ Forall (fun col => raw_has_column data col = true)
                    required_columns
          /\ Forall (fun c => c <> Null) (raw_column data "player_id")
          /\ to_datetime_ok (raw_column data "date") = true
          /\ Forall (fun c => c = RawStr "S1" \/ c = RawStr "S2")
                    (raw_column data "time_slot")
          /\ Forall (fun col =>
                       Forall (fun c => exists q,
                                   to_numeric parse_number c = Some q
                                   /\ 0 <= q)
                              (raw_column data col))
                    numeric_columns).
Proof.
  intros _. unfold validate_data.
  destruct (raw_rows data) as [|row rest] eqn:Erows.
  - cbn [List.length Nat.eqb is_valid errors]. split.
    + split; [discriminate|]. intros H. now elim (append_not_nil _ _ H).
    + split; [discriminate | intros [H _]; congruence].
  - cbn [List.length Nat.eqb is_valid errors].
    set (final := fold_left _ numeric_columns _).
    assert (Hlen : (List.length final =? 0)%nat = true <-> final = []).
    { rewrite Nat.eqb_eq. destruct final; simpl; split; congruence. }
    split; [exact Hlen|]. rewrite Hlen. unfold final. clear final Hlen.
    rewrite validate_numeric_all_nil, slot_step_nil, !checked_nil,
      missing_step_nil.
    set (missing := filter _ required_columns).
    assert (Hmissing : missing = []
                       <-> Forall (fun col => raw_has_column data col = true)
                                  required_columns).
    { unfold missing. rewrite filter_nil_iff. split; apply Forall_impl;
        intros col H; [now apply negb_false_iff in H | now rewrite H]. }
    rewrite Hmissing. clear missing Hmissing.
    assert (Hslots :
              (0 <? List.length
                      (unique_cells
                         (filter (fun c => negb (isin valid_slots c))
                                 (raw_column data "time_slot"))))%nat = false
              <-> Forall (fun c => c = RawStr "S1" \/ c = RawStr "S2")
                         (raw_column data "time_slot")).
    { rewrite Nat.ltb_ge.
      assert (Hu : forall l : list RawCell,
                 (List.length (unique_cells l) <= 0)%nat <-> l = []).
      { intros l. rewrite <- unique_cells_nil.
        destruct (unique_cells l); simpl; split; try congruence; lia. }
      rewrite Hu, filter_nil_iff. split; apply Forall_impl; intros c Hc.
      - apply negb_false_iff in Hc. now apply isin_valid_slots.
      - apply negb_false_iff. now apply isin_valid_slots. }
    assert (Hnull : existsb is_null (raw_column data "player_id") = false
                    <-> Forall (fun c => c <> Null)
                               (raw_column data "player_id")).
    { rewrite existsb_false_iff. split; apply Forall_impl; intros c Hc.
      - intros ->. discriminate.
      - destruct c; [congruence | reflexivity | reflexivity]. }
    split.
    + intros [[[[Hall Hpid] Hdate] Hts] Hnum].
      destruct (required_columns_present data Hall) as [Hp [Hd [Ht Hn]]].
      rewrite Hp in Hpid. rewrite Hd in Hdate. simpl in Hpid, Hdate.
      split; [discriminate | split; [exact Hall|]].
      split; [now apply Hnull | split; [now apply negb_false_iff in Hdate|]].
      split; [apply Hslots; now apply Hts|].
      apply Forall_forall. intros col Hcol.
      apply (proj1 (Forall_forall _ _) Hnum col Hcol).
      apply (proj1 (Forall_forall _ _) Hn col Hcol).
    + intros [_ [Hall [Hpid [Hdate [Hts Hnum]]]]].
      destruct (required_columns_present data Hall) as [Hp [Hd [Ht Hn]]].
      rewrite Hp, Hd. simpl.
      apply Hnull in Hpid. apply Hslots in Hts. rewrite Hpid, Hdate.
      repeat split; trivial.
      revert Hnum. apply Forall_impl. intros col Hcol _. exact Hcol.
Qed.

End ValidatorFacts.

Lemma validate_data_accepts_sample_upload :
  NoDup (raw_columns sample_upload)
  /\ is_valid (validate_data any_date no_number question_mark sample_upload)
     = true.
Proof.
  assert (Hlabels : NoDup (raw_columns sample_upload)).
  { repeat (apply NoDup_cons; [simpl; intuition discriminate|]).
    apply NoDup_nil. }
  split; [exact Hlabels|].
  apply (proj2 (proj2 (validate_data_accepts_iff any_date no_number
                                                 question_mark sample_upload
                                                 Hlabels))).
  split; [discriminate|].
  split; [repeat constructor|].
  split; [cbn; repeat constructor; discriminate|].
  split; [reflexivity|].
  split; [cbn; repeat (apply Forall_cons || apply Forall_nil); auto|].
  cbn; repeat constructor; eexists; (split; [reflexivity | discriminate]).
Defined.

(* ================================================================= *)
(** * Grouping by player *)

Lemma unique_In (x : string) (l : list string) : In x (unique l) <-> In x l.
Proof.
  induction l as [|y l IH]; simpl; [reflexivity|].
  rewrite filter_In, IH, negb_true_iff, String.eqb_neq.
  destruct (string_dec y x); intuition.
Qed.

Lemma unique_NoDup (l : list string) : NoDup (unique l).
Proof.
  induction l as [|y l IH]; simpl; constructor.
  - rewrite filter_In, negb_true_iff, String.eqb_neq. intuition.
  - now apply NoDup_filter.
Qed.

Lemma sum_app (a b : list Q) : sum (a ++ b) == sum a + sum b.
Proof.
  induction a as [|x a IH]; simpl; [ring|]. rewrite IH. ring.
Qed.












(* ================================================================= *)
(** * More on the scorer *)

Lemma monthly_results_players (data : list ActivityRecord) :
  map row_player_id (monthly_results data) = unique (map player_id data).
Proof.
  unfold monthly_results. rewrite map_map. simpl. apply map_id.
Qed.

(** X8.  The monthly result of a non-empty table has exactly one row per
    player of the table: its player ids are the distinct player ids of the
    records, none twice, and the row of a player holds the breakdown of
    precisely that player's records, without date or slot. *)
Theorem monthly_result_one_row_per_player (data : list ActivityRecord) :
  data <> [] ->
  exists df,
    calculate_monthly_loyalty_points data = Ok df
    /\ NoDup (map row_player_id (rows df))
    /\ (forall pid, In pid (map row_player_id (rows df))
                    <-> In pid (map player_id data))
    /\ Forall (fun r =>
                 points r = calculate_player_loyalty_points
                              (for_player (row_player_id r) data)
                 /\ row_date r = None /\ row_time_slot r = None)
              (rows df).
Proof.
  intros Hne. eexists. split; [now apply calculate_monthly_ok|].
  cbn [rows].
  assert (Hperm := stable_sort_desc_perm (not_below ["total_loyalty_points"])
                                         (monthly_results data)).
  assert (Hids := Permutation_map row_player_id Hperm).
  rewrite monthly_results_players in Hids.
  split; [| split].
  - apply (Permutation_NoDup (Permutation_sym Hids)), unique_NoDup.
  - intros pid. rewrite <- (unique_In pid (map player_id data)).
    split; apply Permutation_in; [exact Hids | now apply Permutation_sym].
  - apply (Permutation_Forall (Permutation_sym Hperm)).
    unfold monthly_results. apply Forall_map, Forall_forall.
    intros pid _. simpl. repeat split.
Qed.

Lemma monthly_result_one_row_per_player_sample :
  exists df,
    calculate_monthly_loyalty_points two_months = Ok df
    /\ NoDup (map row_player_id (rows df))
    /\ (forall pid, In pid (map row_player_id (rows df))
                    <-> In pid (map player_id two_months))
    /\ Forall (fun r =>
                 points r = calculate_player_loyalty_points
                              (for_player (row_player_id r) two_months)
                 /\ row_date r = None /\ row_time_slot r = None)
              (rows df).
Proof.
  apply monthly_result_one_row_per_player. discriminate.
Defined.











Lemma slot_rows (data : list ActivityRecord) (target_date slot : string) :
  rows (calculate_slot_loyalty_points data target_date slot)
  = map (fun pid =>
           {| row_player_id := pid;
              row_date := Some target_date;
              row_time_slot := Some slot;
              points := calculate_player_loyalty_points
                          (for_player pid (in_slot target_date slot data)) |})
        (unique (map player_id (in_slot target_date slot data))).
Proof.
  unfold calculate_slot_loyalty_points, in_slot.
  destruct (filter _ data); reflexivity.
Qed.

(** X11.  The result of a slot calculation has one row for each player
    with a record on that date in that slot, and no other row; each row
    carries the date and the slot and is computed from that player's records
    of the slot only. *)
Theorem slot_result_covers_the_slot (data : list ActivityRecord)
    (target_date slot : string) :
  let df := calculate_slot_loyalty_points data target_date slot in
  NoDup (map row_player_id (rows df))
  /\ (forall pid,
         In pid (map row_player_id (rows df))
         <-> exists r, In r data /\ player_id r = pid
                       /\ date r = target_date /\ time_slot r = slot)
  /\ Forall (fun r =>
               row_date r = Some target_date
               /\ row_time_slot r = Some slot
               /\ points r
                  = calculate_player_loyalty_points
                      (for_player (row_player_id r)
                                  (in_slot target_date slot data)))
            (rows df).
Proof.
  cbv zeta. rewrite slot_rows. rewrite !map_map. cbn [row_player_id].
  rewrite map_id. split; [apply unique_NoDup | split].
  - intros pid. rewrite unique_In, in_map_iff. unfold in_slot.
    split.
    + intros [r [Hpid Hr]]. apply filter_In in Hr. destruct Hr as [Hin Hb].
      apply andb_true_iff in Hb. destruct Hb as [Hd Hs].
      apply String.eqb_eq in Hd, Hs. now exists r.
    + intros [r [Hin [Hpid [Hd Hs]]]]. exists r. split; [exact Hpid|].
      apply filter_In. split; [exact Hin|].
      apply andb_true_iff. now rewrite !String.eqb_eq.
  - apply Forall_map, Forall_forall. intros pid _. simpl. repeat split.
Qed.

(* ================================================================= *)
(** * More on the ranker *)

Lemma slot_columns (data : list ActivityRecord) (target_date slot : string) :
  rows (calculate_slot_loyalty_points data target_date slot) <> [] ->
  columns (calculate_slot_loyalty_points data target_date slot)
  = "player_id" :: "date" :: "time_slot" :: points_keys.
Proof.
  unfold calculate_slot_loyalty_points.
  destruct (filter _ data) as [|r rest]; [intros H; now elim H|].
  intros _. unfold DataFrame_of_records. cbn [columns].
  destruct (unique (map player_id (r :: rest))) eqn:E; [|reflexivity].
  exfalso. revert E. apply unique_nonempty. discriminate.
Qed.


Lemma not_below_refl (by_ : list string) (a : LoyaltyRow) :
  not_below by_ a a = true.
Proof. destruct (not_below_total by_ a a); assumption. Qed.

Lemma not_below_two_keys (a b : LoyaltyRow) :
  not_below ["total_loyalty_points"; default_tie_breaker] a b = true ->
  points_of b <= points_of a
  /\ (points_of a == points_of b -> games_of b <= games_of a).
Proof.
  unfold not_below, row_compare, default_tie_breaker. cbn [map].
  change (get b "total_loyalty_points") with (Some (Num (points_of b))).
  change (get a "total_loyalty_points") with (Some (Num (points_of a))).
  change (get b "total_games_played") with (Some (Num (games_of b))).
  change (get a "total_games_played") with (Some (Num (games_of a))).
  cbn [lex_compare key_compare cell_compare].
  destruct (Qcompare_spec (points_of a) (points_of b)) as [Hp|Hp|Hp].
  - destruct (Qcompare_spec (games_of a) (games_of b)) as [Hg|Hg|Hg];
      intros H; try discriminate; split; intros; lra.
  - discriminate.
  - intros _. split; intros; lra.
Qed.

(** X13.  In a frame ranked with the default tie-breaker a smaller rank
    never goes with fewer points: of two ranked players the one ranked
    first has at least the points of the other and, when the points are
    equal, at least as many games played. *)
Theorem ranks_follow_points (df : DataFrame LoyaltyRow) :
  has_column df "total_loyalty_points" = true ->
  has_column df "total_games_played" = true ->
  exists ranked_data,
    rank_players_by_loyalty_points df default_tie_breaker = Ok ranked_data
    /\ forall a b : RankedRow,
        In a (rows ranked_data) -> In b (rows ranked_data) ->
        (rank a < rank b)%Z ->
        points_of (entry b) <= points_of (entry a)
        /\ (points_of (entry a) == points_of (entry b) ->
            games_of (entry b) <= games_of (entry a)).
Proof.
  intros H1 H2. eexists. split; [now apply rank_players_ok|].
  cbn [rows]. intros a b Ha Hb Hlt.
  apply assign_rank_position in Ha, Hb.
  destruct Ha as [i [Hi Ri]], Hb as [j [Hj Rj]].
  assert (Hij : (i < j)%nat) by lia.
  assert (Hs : StronglySorted
                 (fun x y => not_below ["total_loyalty_points";
                                        default_tie_breaker] x y = true)
                 (stable_sort_desc
                    (not_below ["total_loyalty_points"; default_tie_breaker])
                    (rows df))).
  { apply stable_sort_desc_sorted;
      [apply not_below_total | apply not_below_trans]. }
  apply not_below_two_keys.
  exact (StronglySorted_nth_error Hs Hij Hi Hj).
Qed.

Lemma ranks_follow_points_sample :
  let df := session_results two_months in
  exists ranked_data,
    rank_players_by_loyalty_points df default_tie_breaker = Ok ranked_data
    /\ forall a b : RankedRow,
        In a (rows ranked_data) -> In b (rows ranked_data) ->
        (rank a < rank b)%Z ->
        points_of (entry b) <= points_of (entry a)
        /\ (points_of (entry a) == points_of (entry b) ->
            games_of (entry b) <= games_of (entry a)).
Proof.
  apply ranks_follow_points; reflexivity.
Defined.

Section SortedFixpoint.

Variable A : Type.
Variable geb : A -> A -> bool.

(** Sorting a list that is in order already returns it unchanged. *)
Lemma stable_sort_desc_of_sorted (l : list A) :
  StronglySorted (fun a b => geb a b = true) l -> stable_sort_desc geb l = l.
Proof.
  induction 1 as [|x l Hl IH Hx]; simpl; [reflexivity|].
  rewrite IH. destruct l as [|y l]; simpl; [reflexivity|].
  inversion Hx as [|? ? Hxy _]; subst. now rewrite Hxy.
Qed.

End SortedFixpoint.

(** X14.  Ranking is idempotent: ranking again the players of a ranked
    frame, with the same tie-breaker, returns the same rows with the same
    ranks. *)
Theorem ranking_twice_changes_nothing (df : DataFrame LoyaltyRow)
    (tie_breaker : string) :
  has_column df "total_loyalty_points" = true ->
  has_column df tie_breaker = true ->
  exists ranked_data,
    rank_players_by_loyalty_points df tie_breaker = Ok ranked_data
    /\ exists again,
        rank_players_by_loyalty_points (unranked (columns df) ranked_data)
                                       tie_breaker
        = Ok again
        /\ rows again = rows ranked_data.
Proof.
  intros H1 H2. eexists. split; [now apply rank_players_ok|].
  eexists. split; [now apply rank_players_ok|].
  cbn [rows unranked]. rewrite assign_rank_entries.
  rewrite stable_sort_desc_of_sorted; [reflexivity|].
  apply stable_sort_desc_sorted; [apply not_below_total | apply not_below_trans].
Qed.

Lemma ranking_twice_changes_nothing_sample :
  let df := session_results two_months in
  exists ranked_data,
    rank_players_by_loyalty_points df default_tie_breaker = Ok ranked_data
    /\ exists again,
        rank_players_by_loyalty_points (unranked (columns df) ranked_data)
                                       default_tie_breaker
        = Ok again
        /\ rows again = rows ranked_data.
Proof.
  apply ranking_twice_changes_nothing; reflexivity.
Defined.

(* ================================================================= *)
(** * More on the bonus allocator *)

Lemma StronglySorted_app_cross (A : Type) (R : A -> A -> Prop)
    (a b : list A) :
  StronglySorted R (a ++ b) ->
  StronglySorted R a /\ Forall (fun x => Forall (R x) b) a.
Proof.
  induction a as [|x a IH]; simpl; intros H.
  - split; constructor.
  - inversion H as [|? ? Hs Hx]; subst.
    destruct (IH Hs) as [Ha Hab]. apply Forall_app in Hx.
    destruct Hx as [Hxa Hxb]. split; constructor; assumption.
Qed.

(** X15.  Who enters the allocation: the members are the min(50, N)
    highest scorers of the N scored players, ranked 1, 2, ... in descending
    order of points; every player left out has no more points than any
    member. *)
Theorem allocation_takes_the_top_50 (results_df : DataFrame LoyaltyRow)
    (bonus_pool : Q) (allocation_method : AllocationMethod) :
  has_column results_df "total_loyalty_points" = true ->
  exists out left_out,
    bonus_allocation_page results_df bonus_pool allocation_method = Ok out
    /\ List.length (rows out)
       = Nat.min 50 (List.length (rows results_df))
    /\ map (fun r => rank (ranked r)) (rows out)
       = map Z.of_nat (seq 1 (List.length (rows out)))
    /\ descending (map (fun r => entry (ranked r)) (rows out))
    /\ Permutation (rows results_df)
                   (map (fun r => entry (ranked r)) (rows out) ++ left_out)
    /\ Forall (fun r =>
                 Forall (fun member =>
                           points_of r <= points_of (entry (ranked member)))
                        (rows out))
              left_out.
Proof.
  intros Hcol.
  destruct (bonus_allocation_ok results_df bonus_pool allocation_method Hcol)
    as [out [Hout [Hranked _]]].
  set (ordered := stable_sort_desc (not_below ["total_loyalty_points"])
                                   (rows results_df)) in *.
  exists out, (skipn 50 ordered).
  assert (Hentries : map (fun r => entry (ranked r)) (rows out)
                     = firstn 50 ordered).
  { rewrite <- (map_map ranked entry), Hranked. apply assign_rank_entries. }
  assert (Hsorted : descending (firstn 50 ordered ++ skipn 50 ordered)).
  { rewrite firstn_skipn. apply sorted_by_points_descending. }
  apply StronglySorted_app_cross in Hsorted. destruct Hsorted as [Hd Hcross].
  split; [exact Hout | split; [| split; [| split; [| split]]]].
  - exact (bonus_rows_length _ _ _ Hcol Hout).
  - rewrite <- (map_map ranked rank), Hranked, assign_rank_ranks.
    now rewrite <- (assign_rank_length (firstn 50 ordered)), <- Hranked,
      length_map.
  - now rewrite Hentries.
  - rewrite Hentries, firstn_skipn. apply Permutation_sym.
    apply stable_sort_desc_perm.
  - apply Forall_forall. intros r Hr.
    apply Forall_map with (f := fun m => entry (ranked m))
                          (P := fun e => points_of r <= points_of e).
    rewrite Hentries. apply Forall_forall. intros e He.
    apply (proj1 (Forall_forall _ _) Hcross) in He.
    exact (proj1 (Forall_forall _ _) He r Hr).
Qed.

Lemma allocation_takes_the_top_50_sample :
  exists out left_out,
    bonus_allocation_page (session_results (crowd 60)) 50000 Tiered = Ok out
    /\ List.length (rows out)
       = Nat.min 50 (List.length (rows (session_results (crowd 60))))
    /\ map (fun r => rank (ranked r)) (rows out)
       = map Z.of_nat (seq 1 (List.length (rows out)))
    /\ descending (map (fun r => entry (ranked r)) (rows out))
    /\ Permutation (rows (session_results (crowd 60)))
                   (map (fun r => entry (ranked r)) (rows out) ++ left_out)
    /\ Forall (fun r =>
                 Forall (fun member =>
                           points_of r <= points_of (entry (ranked member)))
                        (rows out))
              left_out.
Proof.
  apply (@allocation_takes_the_top_50 (session_results (crowd 60)) 50000
                                      Tiered).
  vm_compute. reflexivity.
Defined.




Lemma combine_map_same (A B : Type) (g : A -> B) (l : list A) :
  combine l (map g l) = map (fun x => (x, g x)) l.
Proof. induction l as [|x l IH]; simpl; congruence. Qed.

Lemma loc_assign_by_position (lo hi n : nat) (v : float64)
    (g : nat -> float64) :
  loc_assign lo hi v (map g (seq 0 n))
  = map (fun i => if (lo <=? i)%nat && (i <=? hi)%nat then v else g i)
        (seq 0 n).
Proof.
  unfold loc_assign. rewrite length_map, length_seq, combine_map_same, map_map.
  reflexivity.
Qed.

Lemma map_pair (A B C : Type) (f : A -> B) (g : A -> C) (l : list A) :
  map (fun x => (f x, g x)) l = combine (map f l) (map g l).
Proof. induction l as [|x l IH]; simpl; congruence. Qed.

Lemma tier_amount_at_position (bonus_pool : Q) (i : nat) :
  (i < 50)%nat ->
  (if (30 <=? i)%nat && (i <=? 49)%nat then Finite (bonus_pool * 0.15 / 20)
   else if (10 <=? i)%nat && (i <=? 29)%nat
        then Finite (bonus_pool * 0.35 / 20)
        else if (0 <=? i)%nat && (i <=? 9)%nat
             then Finite (bonus_pool * 0.5 / 10)
             else Finite 0.0)
  = Finite (tier_amount bonus_pool (Z.of_nat (S i))).
Proof.
  intros Hi. unfold tier_amount.
  destruct (Nat.leb_spec 30 i), (Nat.leb_spec i 49), (Nat.leb_spec 10 i),
    (Nat.leb_spec i 29), (Nat.leb_spec 0 i), (Nat.leb_spec i 9),
    (Z.leb_spec (Z.of_nat (S i)) 10), (Z.leb_spec (Z.of_nat (S i)) 30);
    simpl; try reflexivity; lia.
Qed.

Lemma tier_amount_decreasing (bonus_pool : Q) (r1 r2 : Z) :
  0 <= bonus_pool -> (r1 <= r2)%Z ->
  tier_amount bonus_pool r2 <= tier_amount bonus_pool r1.
Proof.
  intros Hp Hr. unfold tier_amount.
  assert (H1 : bonus_pool * 0.5 / 10 == bonus_pool * 0.05) by field.
  assert (H2 : bonus_pool * 0.35 / 20 == bonus_pool * 0.0175) by field.
  assert (H3 : bonus_pool * 0.15 / 20 == bonus_pool * 0.0075) by field.
  destruct (Z.leb_spec r1 10), (Z.leb_spec r1 30), (Z.leb_spec r2 10),
    (Z.leb_spec r2 30); try lia; rewrite ?H1, ?H2, ?H3; lra.
Qed.

Lemma tiered_column_by_position (bonus_pool : Q) (l : list RankedRow) :
  bonus_column Tiered bonus_pool l
  = map (fun i =>
           if (30 <=? i)%nat && (i <=? 49)%nat
           then Finite (bonus_pool * 0.15 / 20)
           else if (10 <=? i)%nat && (i <=? 29)%nat
                then Finite (bonus_pool * 0.35 / 20)
                else if (0 <=? i)%nat && (i <=? 9)%nat
                     then Finite (bonus_pool * 0.5 / 10)
                     else Finite 0.0)
        (seq 0 (List.length l)).
Proof.
  unfold bonus_column.
  assert (E : map (fun _ : RankedRow => Finite 0.0) l
              = map (fun _ : nat => Finite 0.0) (seq 0 (List.length l))).
  { now rewrite !map_constant, length_seq. }
  rewrite E, !loc_assign_by_position. reflexivity.
Qed.

(** X17.  Under the Tiered method the amount depends on the rank alone,
    whatever the number of members: ranks 1 to 10 receive
    [pool * 0.5 / 10], ranks 11 to 30 [pool * 0.35 / 20] and ranks 31 to 50
    [pool * 0.15 / 20].  With a pool that is not negative a better rank
    never receives less. *)
Theorem tiered_amount_by_rank (results_df : DataFrame LoyaltyRow)
    (bonus_pool : Q) :
  has_column results_df "total_loyalty_points" = true ->
  exists out,
    bonus_allocation_page results_df bonus_pool Tiered = Ok out
    /\ Forall (fun r =>
                 bonus_amount r
                 = Finite (tier_amount bonus_pool (rank (ranked r))))
              (rows out)
    /\ (0 <= bonus_pool ->
        forall a b, In a (rows out) -> In b (rows out) ->
          (rank (ranked a) <= rank (ranked b))%Z ->
          tier_amount bonus_pool (rank (ranked b))
          <= tier_amount bonus_pool (rank (ranked a))).
Proof.
  intros Hcol.
  destruct (bonus_allocation_ok results_df bonus_pool Tiered Hcol)
    as [out [Hout [Hranked Hbonus]]].
  assert (Hlen := top_length results_df).
  revert Hranked Hbonus Hlen. set (top := assign_rank _).
  intros Hranked Hbonus Hlen.
  exists out. split; [exact Hout | split].
  - apply Forall_map
      with (f := fun r => (rank (ranked r), bonus_amount r))
           (P := fun p => snd p = Finite (tier_amount bonus_pool (fst p))).
    rewrite map_pair, <- (map_map ranked rank), Hranked, Hbonus.
    rewrite tiered_column_by_position.
    unfold top at 1. rewrite assign_rank_ranks, <- assign_rank_length.
    fold top. rewrite <- seq_shift, map_map, <- map_pair.
    apply Forall_map, Forall_forall. intros i Hi. apply in_seq in Hi.
    cbn [fst snd]. apply tier_amount_at_position. lia.
  - intros Hp a b _ _ Hab. now apply tier_amount_decreasing.
Qed.

Lemma tiered_amount_by_rank_sample :
  exists out,
    bonus_allocation_page (session_results (crowd 12)) 50000 Tiered = Ok out
    /\ Forall (fun r =>
                 bonus_amount r = Finite (tier_amount 50000 (rank (ranked r))))
              (rows out)
    /\ (0 <= 50000 ->
        forall a b, In a (rows out) -> In b (rows out) ->
          (rank (ranked a) <= rank (ranked b))%Z ->
          tier_amount 50000 (rank (ranked b))
          <= tier_amount 50000 (rank (ranked a))).
Proof.
  apply (@tiered_amount_by_rank (session_results (crowd 12)) 50000).
  vm_compute. reflexivity.
Defined.

(** X18.  Under the Proportional method, when the points of the members
    do not sum to zero, each member receives its share of these points times
    the pool.  With a pool that is not negative and a positive sum, a member
    with more points never receives less. *)
Theorem proportional_amount_is_share (results_df : DataFrame LoyaltyRow)
    (bonus_pool : Q) :
  has_column results_df "total_loyalty_points" = true ->
  ~ sum (top_50_points results_df) == 0 ->
  exists out,
    bonus_allocation_page results_df bonus_pool Proportional = Ok out
    /\ Forall (fun r =>
                 bonus_amount r
                 = Finite (loyalty_points_of (ranked r)
                           / sum (top_50_points results_df) * bonus_pool))
              (rows out)
    /\ (0 <= bonus_pool -> 0 < sum (top_50_points results_df) ->
        forall a b, In a (rows out) -> In b (rows out) ->
          loyalty_points_of (ranked a) <= loyalty_points_of (ranked b) ->
          loyalty_points_of (ranked a)
            / sum (top_50_points results_df) * bonus_pool
          <= loyalty_points_of (ranked b)
               / sum (top_50_points results_df) * bonus_pool).
Proof.
  intros Hcol Hsum.
  destruct (bonus_allocation_ok results_df bonus_pool Proportional Hcol)
    as [out [Hout [Hranked Hbonus]]].
  rewrite top_50_points_ok in * by exact Hcol.
  revert Hranked Hbonus Hsum. set (top := assign_rank _).
  intros Hranked Hbonus Hsum.
  exists out. split; [exact Hout | split].
  - apply Forall_map
      with (f := fun r => (ranked r, bonus_amount r))
           (P := fun p => snd p
                          = Finite (loyalty_points_of (fst p)
                                    / sum (map loyalty_points_of top)
                                    * bonus_pool)).
    rewrite map_pair, Hranked, Hbonus.
    rewrite proportional_column by exact Hsum.
    rewrite combine_map_same. apply Forall_map, Forall_forall.
    intros r _. reflexivity.
  - intros Hp Ht a b _ _ Hab.
    set (t := sum (map loyalty_points_of top)) in *.
    assert (Hk : 0 <= / t * bonus_pool).
    { apply Qmult_le_0_compat; [|exact Hp].
      apply Qlt_le_weak, Qinv_lt_0_compat, Ht. }
    unfold Qdiv. rewrite <- !Qmult_assoc.
    now apply Qmult_le_compat_r.
Qed.

Lemma proportional_amount_is_share_sample :
  exists out,
    bonus_allocation_page (session_results two_months) 50000 Proportional
    = Ok out
    /\ Forall (fun r =>
                 bonus_amount r
                 = Finite (loyalty_points_of (ranked r)
                           / sum (top_50_points (session_results two_months))
                           * 50000))
              (rows out)
    /\ (0 <= 50000 -> 0 < sum (top_50_points (session_results two_months)) ->
        forall a b, In a (rows out) -> In b (rows out) ->
          loyalty_points_of (ranked a) <= loyalty_points_of (ranked b) ->
          loyalty_points_of (ranked a)
            / sum (top_50_points (session_results two_months)) * 50000
          <= loyalty_points_of (ranked b)
               / sum (top_50_points (session_results two_months)) * 50000).
Proof.
  apply (@proportional_amount_is_share (session_results two_months) 50000).
  - reflexivity.
  - vm_compute. discriminate.
Defined.

(* ================================================================= *)
(** * The summary report *)

Lemma fold_max_spec (l : list Q) (x : Q) :
  let M := fold_left (fun m y => if Qle_bool y m then m else y) l x in
  x <= M /\ Forall (fun y => y <= M) l.
Proof.
  revert x. induction l as [|y l IH]; intros x; simpl.
  - split; [apply Qle_refl | constructor].
  - destruct (Qle_bool y x) eqn:E.
    + destruct (IH x) as [Hx Hl]. apply Qle_bool_iff in E.
      split; [exact Hx|]. constructor; [lra | exact Hl].
    + destruct (IH y) as [Hy Hl].
      assert (Hxy : x <= y).
      { apply Qlt_le_weak, Qnot_le_lt. intros H.
        apply Qle_bool_iff in H. congruence. }
      split; [lra|]. constructor; [exact Hy | exact Hl].
Qed.

Lemma fold_min_spec (l : list Q) (x : Q) :
  let m := fold_left (fun m y => if Qle_bool m y then m else y) l x in
  m <= x /\ Forall (fun y => m <= y) l.
Proof.
  revert x. induction l as [|y l IH]; intros x; simpl.
  - split; [apply Qle_refl | constructor].
  - destruct (Qle_bool x y) eqn:E.
    + destruct (IH x) as [Hx Hl]. apply Qle_bool_iff in E.
      split; [exact Hx|]. constructor; [lra | exact Hl].
    + destruct (IH y) as [Hy Hl].
      assert (Hxy : y <= x).
      { apply Qlt_le_weak, Qnot_le_lt. intros H.
        apply Qle_bool_iff in H. congruence. }
      split; [lra|]. constructor; [exact Hy | exact Hl].
Qed.

Lemma sum_between (lo hi : Q) (col : list Q) :
  Forall (fun x => lo <= x <= hi) col ->
  inject_Z (Z.of_nat (List.length col)) * lo <= sum col
  /\ sum col <= inject_Z (Z.of_nat (List.length col)) * hi.
Proof.
  induction 1 as [|x col Hx _ IH].
  - simpl. change (inject_Z 0) with 0. split; lra.
  - cbn [List.length sum fold_right].
    change (fold_right Qplus 0 col) with (sum col).
    rewrite Nat2Z.inj_succ. unfold Z.succ. rewrite inject_Z_plus.
    revert IH. generalize (inject_Z (Z.of_nat (List.length col))).
    intros n [H1 H2].
    setoid_replace ((n + inject_Z 1) * lo) with (n * lo + lo) by ring.
    setoid_replace ((n + inject_Z 1) * hi) with (n * hi + hi) by ring.
    split; lra.
Qed.

(** Scanning for the first largest entry: [prefix] has been read, its first
    largest entry [m] stands at [best]. *)
Lemma argmax_from_spec (l prefix : list Q) (best : nat) (m : Q) :
  nth_error prefix best = Some m ->
  Forall (fun x => x <= m) prefix ->
  (forall j x, (j < best)%nat -> nth_error prefix j = Some x -> x < m) ->
  let k := argmax_from best m (List.length prefix) l in
  exists M,
    nth_error (prefix ++ l) k = Some M
    /\ Forall (fun x => x <= M) (prefix ++ l)
    /\ forall j x, (j < k)%nat -> nth_error (prefix ++ l) j = Some x -> x < M.
Proof.
  revert prefix best m. induction l as [|y l IH];
    intros prefix best m Hbest Hall Hfirst; simpl.
  - exists m. rewrite app_nil_r. auto.
  - assert (Hlt : (best < List.length prefix)%nat).
    { apply nth_error_Some. rewrite Hbest. discriminate. }
    assert (Hlen : List.length (prefix ++ [y]) = S (List.length prefix)).
    { rewrite length_app. simpl. lia. }
    replace (prefix ++ y :: l)%list with ((prefix ++ [y]) ++ l)%list
      by (rewrite <- app_assoc; reflexivity).
    rewrite <- Hlen.
    destruct (Qle_bool y m) eqn:E.
    + apply Qle_bool_iff in E. apply IH.
      * rewrite nth_error_app1 by exact Hlt. exact Hbest.
      * apply Forall_app. split; [exact Hall | now constructor].
      * intros j x Hj Hx. rewrite nth_error_app1 in Hx by lia.
        now apply (Hfirst j).
    + assert (Hmy : m < y).
      { apply Qnot_le_lt. intros H. apply Qle_bool_iff in H. congruence. }
      apply IH.
      * rewrite nth_error_app2 by lia. now rewrite Nat.sub_diag.
      * apply Forall_app. split.
        -- revert Hall. apply Forall_impl. intros x Hx. lra.
        -- constructor; [apply Qle_refl | constructor].
      * intros j x Hj Hx. rewrite nth_error_app1 in Hx by lia.
        apply nth_error_In in Hx.
        apply (proj1 (Forall_forall _ _) Hall) in Hx. lra.
Qed.

Lemma idxmax_spec (col : list Q) :
  col <> [] ->
  exists M,
    nth_error col (idxmax col) = Some M
    /\ Forall (fun x => x <= M) col
    /\ forall j x, (j < idxmax col)%nat -> nth_error col j = Some x -> x < M.
Proof.
  destruct col as [|x l]; [congruence|]. intros _.
  apply (@argmax_from_spec l [x] 0 x).
  - reflexivity.
  - constructor; [apply Qle_refl | constructor].
  - intros j y Hj. lia.
Qed.

Lemma argmax_from_stays (l : list Q) (best i : nat) (m : Q) :
  Forall (fun y => y <= m) l -> argmax_from best m i l = best.
Proof.
  intros H. revert i. induction H as [|y l Hy _ IH]; intros i; simpl;
    [reflexivity|].
  apply Qle_bool_iff in Hy. rewrite Hy. apply IH.
Qed.

Lemma check_columns_ok (R : Type) (df : DataFrame R) (cols : list string) :
  Forall (fun c => has_column df c = true) cols ->
  check_columns df cols = Ok tt.
Proof.
  induction 1 as [|c cols Hc _ IH]; simpl; [reflexivity|].
  now rewrite Hc.
Qed.

Section SummaryReportFacts.

Variable sqrt : Q -> Q.

Lemma summary_report_ok (df : DataFrame LoyaltyRow) :
  rows df <> [] ->
  Forall (fun c => has_column df c = true) report_columns ->
  exists report,
    generate_loyalty_summary_report sqrt df = Ok (Some report)
    /\ report_total_players report = Z.of_nat (List.length (rows df))
    /\ report_total_loyalty_points report = sum (map points_of (rows df))
    /\ report_average_loyalty_points report = mean (map points_of (rows df))
    /\ report_max_loyalty_points report = col_max (map points_of (rows df))
    /\ report_min_loyalty_points report = col_min (map points_of (rows df))
    /\ report_top_player report
       = nth (idxmax (map points_of (rows df)))
             (map row_player_id (rows df)) EmptyString
    /\ report_total_deposits report
       = sum (map (fun r => total_deposits (points r)) (rows df)).
Proof.
  intros Hrows Hcols. unfold generate_loyalty_summary_report.
  assert (He : frame_empty df = false).
  { unfold frame_empty. apply orb_false_iff. split; apply Nat.eqb_neq.
    - destruct (rows df); [congruence | discriminate].
    - inversion Hcols as [|? ? Hc _]; subst. unfold has_column in Hc.
      destruct (columns df); [discriminate Hc | discriminate]. }
  rewrite He. change (check_columns df _) with (check_columns df report_columns).
  rewrite (check_columns_ok _ Hcols). cbn [bind].
  eexists. split; [reflexivity|]. repeat split.
Qed.

(** X19.  For a frame of scored players with at least one row the summary
    report exists and is coherent: it counts the rows; the minimum and the
    maximum bound the points of every player and each is the points of some
    player; the top player is the first player, in the order of the frame,
    whose points equal the maximum. *)
Theorem summary_report_is_coherent (df : DataFrame LoyaltyRow) :
  rows df <> [] ->
  Forall (fun c => has_column df c = true) report_columns ->
  exists report lowest highest,
    generate_loyalty_summary_report sqrt df = Ok (Some report)
    /\ report_total_players report = Z.of_nat (List.length (rows df))
    /\ report_min_loyalty_points report = Finite lowest
    /\ report_max_loyalty_points report = Finite highest
    /\ Forall (fun r => lowest <= points_of r <= highest) (rows df)
    /\ (exists r, In r (rows df) /\ points_of r = lowest)
    /\ exists k top,
        nth_error (rows df) k = Some top
        /\ report_top_player report = row_player_id top
        /\ points_of top == highest
        /\ forall j r, (j < k)%nat -> nth_error (rows df) j = Some r ->
                       points_of r < highest.
Proof.
  intros Hrows Hcols.
  destruct (summary_report_ok df Hrows Hcols)
    as [report [Hrep [Hn [Hsum [Havg [Hmax [Hmin [Htop _]]]]]]]].
  set (col := map points_of (rows df)) in *.
  assert (Hcol : col <> []).
  { unfold col. destruct (rows df); [congruence | discriminate]. }
  destruct (idxmax_spec Hcol) as [M [HM [HMall HMfirst]]].
  destruct col as [|x l] eqn:Ecol; [congruence|].
  set (highest := fold_left (fun m y => if Qle_bool y m then m else y) l x).
  set (lowest := fold_left (fun m y => if Qle_bool m y then m else y) l x).
  destruct (fold_max_spec l x) as [Hhx Hhl]. fold highest in Hhx, Hhl.
  destruct (fold_min_spec l x) as [Hlx Hll]. fold lowest in Hlx, Hll.
  assert (Hbound : Forall (fun y => lowest <= y <= highest) (x :: l)).
  { constructor; [split; assumption|].
    apply Forall_forall. intros y Hy. split.
    - exact (proj1 (Forall_forall _ _) Hll y Hy).
    - exact (proj1 (Forall_forall _ _) Hhl y Hy). }
  assert (HMh : M == highest).
  { apply Qle_antisym.
    - apply nth_error_In in HM.
      exact (proj2 (proj1 (Forall_forall _ _) Hbound M HM)).
    - assert (Hin : highest = x \/ In highest l).
      { unfold highest. clear. revert x.
        induction l as [|y l IH]; intros x; simpl; [now left|].
        destruct (Qle_bool y x).
        - destruct (IH x) as [H|H]; auto.
        - destruct (IH y) as [H|H]; auto. }
      assert (Hin' : In highest (x :: l)) by (simpl; intuition).
      exact (proj1 (Forall_forall _ _) HMall highest Hin'). }
  assert (Hlowest : In lowest (x :: l)).
  { assert (Hin : lowest = x \/ In lowest l).
    { unfold lowest. clear. revert x.
      induction l as [|y l IH]; intros x; simpl; [now left|].
      destruct (Qle_bool x y).
      - destruct (IH x) as [H|H]; auto.
      - destruct (IH y) as [H|H]; auto. }
    simpl. intuition. }
  exists report, lowest, highest.
  split; [exact Hrep | split; [exact Hn|]].
  split; [now rewrite Hmin | split; [now rewrite Hmax|]].
  assert (Hlen : List.length (x :: l) = List.length (rows df)).
  { rewrite <- Ecol. unfold col. apply length_map. }
  split; [| split].
  - apply Forall_map with (f := points_of)
                          (P := fun y => lowest <= y <= highest).
    fold col. now rewrite Ecol.
  - rewrite <- Ecol in Hlowest. unfold col in Hlowest.
    apply in_map_iff in Hlowest. destruct Hlowest as [r [Hr Hin]].
    now exists r.
  - assert (Hk : (idxmax (x :: l) < List.length (rows df))%nat).
    { rewrite <- Hlen. apply nth_error_Some. rewrite HM. discriminate. }
    destruct (nth_error (rows df) (idxmax (x :: l))) as [top|] eqn:Etop;
      [| apply nth_error_None in Etop; lia].
    exists (idxmax (x :: l)), top.
    assert (Hpt : points_of top = M).
    { assert (H := map_nth_error points_of _ _ Etop).
      fold col in H. rewrite Ecol, HM in H. congruence. }
    split; [exact Etop | split; [| split]].
    + rewrite Htop. apply nth_error_nth.
      now apply map_nth_error.
    + now rewrite Hpt.
    + intros j r Hj Hr. rewrite <- HMh.
      apply (HMfirst j); [exact Hj|].
      rewrite <- Ecol. unfold col. now apply map_nth_error.
Qed.

End SummaryReportFacts.

Lemma summary_report_is_coherent_sample :
  let df := session_results two_months in
  exists report lowest highest,
    generate_loyalty_summary_report no_sqrt df = Ok (Some report)
    /\ report_total_players report = Z.of_nat (List.length (rows df))
    /\ report_min_loyalty_points report = Finite lowest
    /\ report_max_loyalty_points report = Finite highest
    /\ Forall (fun r => lowest <= points_of r <= highest) (rows df)
    /\ (exists r, In r (rows df) /\ points_of r = lowest)
    /\ exists k top,
        nth_error (rows df) k = Some top
        /\ report_top_player report = row_player_id top
        /\ points_of top == highest
        /\ forall j r, (j < k)%nat -> nth_error (rows df) j = Some r ->
                       points_of r < highest.
Proof.
  apply (@summary_report_is_coherent no_sqrt (session_results two_months)).
  - discriminate.
  - repeat constructor.
Defined.

Lemma monthly_columns_for_report (df : DataFrame LoyaltyRow) :
  columns df = "player_id" :: points_keys ->
  Forall (fun c => has_column df c = true) report_columns.
Proof.
  intros H. unfold has_column. rewrite H. repeat constructor.
Qed.

(** X20.  Reporting on the scorer's results.  The report of the monthly
    result of a non-empty table exists: it counts the distinct players of
    the table and its top player is the player of the first row.  The report
    of a slot result is the empty dictionary when no record matched and a
    report over the rows otherwise; it never raises. *)
Theorem summary_report_of_scoring (sqrt : Q -> Q)
    (data : list ActivityRecord) :
  data <> [] ->
  (exists df report first,
      calculate_monthly_loyalty_points data = Ok df
      /\ generate_loyalty_summary_report sqrt df = Ok (Some report)
      /\ report_total_players report
         = Z.of_nat (List.length (unique (map player_id data)))
      /\ hd_error (rows df) = Some first
      /\ report_top_player report = row_player_id first)
  /\ forall target_date slot : string,
      let df := calculate_slot_loyalty_points data target_date slot in
      match rows df with
      | [] => generate_loyalty_summary_report sqrt df = Ok None
      | _ =>
          exists report,
            generate_loyalty_summary_report sqrt df = Ok (Some report)
            /\ report_total_players report
               = Z.of_nat (List.length (rows df))
      end.
Proof.
  intros Hne. split.
  - set (df := {| columns := "player_id" :: points_keys;
                  rows := stable_sort_desc
                            (not_below ["total_loyalty_points"])
                            (monthly_results data) |}).
    assert (Hdf : calculate_monthly_loyalty_points data = Ok df)
      by now apply calculate_monthly_ok.
    assert (Hperm : Permutation (rows df) (monthly_results data))
      by apply stable_sort_desc_perm.
    assert (Hrows : rows df <> []).
    { intros E. rewrite E in Hperm. apply Permutation_nil in Hperm.
      now apply (monthly_results_nonempty Hne). }
    assert (Hcols : Forall (fun c => has_column df c = true) report_columns).
    { apply monthly_columns_for_report. reflexivity. }
    destruct (summary_report_ok sqrt df Hrows Hcols)
      as [report [Hrep [Hn [_ [_ [_ [_ [Htop Hdep]]]]]]]].
    assert (Hsorted : descending (rows df))
      by apply sorted_by_points_descending.
    assert (Hcount : report_total_players report
                     = Z.of_nat (List.length (unique (map player_id data)))).
    { rewrite Hn, <- monthly_results_players, length_map.
      f_equal. now apply Permutation_length. }
    clear Hperm Hn Hdep.
    destruct (rows df) as [|first rest] eqn:Erows; [congruence|].
    exists df, report, first.
    split; [exact Hdf | split; [exact Hrep | split; [exact Hcount|]]].
    split; [now rewrite Erows|].
    rewrite Htop. cbn [map idxmax].
    rewrite argmax_from_stays; [reflexivity|].
    inversion Hsorted as [|? ? _ Hfirst]; subst.
    apply Forall_map. exact Hfirst.
  - intros target_date slot. cbv zeta.
    destruct (rows (calculate_slot_loyalty_points data target_date slot))
      as [|r rest] eqn:E.
    + unfold generate_loyalty_summary_report, frame_empty.
      now rewrite E.
    + assert (Hcols := slot_columns data target_date slot).
      rewrite E in Hcols. specialize (Hcols ltac:(discriminate)).
      destruct (summary_report_ok sqrt
                  (calculate_slot_loyalty_points data target_date slot))
        as [report [Hrep [Hn _]]].
      * rewrite E. discriminate.
      * unfold has_column. rewrite Hcols. repeat constructor.
      * exists report. rewrite E in Hn. now split.
Qed.

Lemma summary_report_of_scoring_sample :
  (exists df report first,
      calculate_monthly_loyalty_points two_months = Ok df
      /\ generate_loyalty_summary_report no_sqrt df = Ok (Some report)
      /\ report_total_players report
         = Z.of_nat (List.length (unique (map player_id two_months)))
      /\ hd_error (rows df) = Some first
      /\ report_top_player report = row_player_id first)
  /\ forall target_date slot : string,
      let df := calculate_slot_loyalty_points two_months target_date slot in
      match rows df with
      | [] => generate_loyalty_summary_report no_sqrt df = Ok None
      | _ =>
          exists report,
            generate_loyalty_summary_report no_sqrt df = Ok (Some report)
            /\ report_total_players report
               = Z.of_nat (List.length (rows df))
      end.
Proof.
  apply (@summary_report_of_scoring no_sqrt two_months). discriminate.
Defined.

(* ================================================================= *)
(** * Month selection *)




(* ================================================================= *)
(** * One more record *)



